(** * AWS IoT ExpressLink host library: the command/response framing engine

    A shallow embedding of [aws_iot_expresslink.py]: the escape codec,
    the line reader, the response parser of [ExpressLink.cmd], the UART
    self-test, and the typed callers built on [cmd] (connectivity
    predicates, certificate getters, event query).

    Python's [str] is a sequence of Unicode code points and [bytes] a
    sequence of octets; the UART is an object whose [readline] and [write]
    methods act on hidden state.  Text is modelled as [list N], octets as
    [list byte], and the UART as an explicit state threaded through a state
    and exception monad.  Sleeping and printing act on neither the UART
    nor the results and are left out; of the GPIO pins only the level of
    the EVENT pin reaches a result, as a parameter of [get_event]. *)

From Stdlib Require Import List NArith ZArith Bool Lia DecimalPos.
From Stdlib.Strings Require Import Ascii String Byte.
Import ListNotations.

Set Implicit Arguments.

(** ** Text and octets *)

Abbreviation codepoint := N (only parsing).
Abbreviation str := (list N) (only parsing).
Abbreviation bytes := (list byte) (only parsing).

(** An ASCII literal as Python text. *)
Definition pystr (s : string) : str :=
  List.map N_of_ascii (list_ascii_of_string s).

(** An ASCII literal as a Python bytes literal [b"..."]. *)
Definition pybytes (s : string) : bytes := list_byte_of_string s.

Arguments pystr s%_string.
Arguments pybytes s%_string.

Definition CR : codepoint := 13%N.
Definition LF : codepoint := 10%N.
Definition BACKSLASH : codepoint := 92%N.
Definition SPACE : codepoint := 32%N.

Definition str_eqb (a b : str) : bool :=
  if list_eq_dec N.eq_dec a b then true else false.

(** [s.startswith(p)] *)
Fixpoint startswith (p s : str) : bool :=
  match p, s with
  | [], _ => true
  | _ :: _, [] => false
  | a :: p', b :: s' => N.eqb a b && startswith p' s'
  end.

(** [s.replace(old, new)] for a non-empty [old] (every call site passes a
    non-empty literal): scan from the left; at a position where [old]
    occurs emit [new] and resume after the occurrence, else keep the
    character.  [skip] counts the characters of a matched occurrence that
    are still to be passed over. *)
Fixpoint replace_from (old new : str) (skip : nat) (s : str) : str :=
  match s with
  | [] => []
  | c :: t =>
      match skip with
      | S k => replace_from old new k t
      | O =>
          if startswith old s
          then new ++ replace_from old new (List.length old - 1) t
          else c :: replace_from old new 0 t
      end
  end.

Definition replace (old new s : str) : str := replace_from old new 0 s.

(** [s.endswith(p)] *)
Definition endswith {A} (eqb : A -> A -> bool) (p s : list A) : bool :=
  let fix go (p s : list A) : bool :=
    match p, s with
    | [], _ => true
    | _ :: _, [] => false
    | a :: p', b :: s' => eqb a b && go p' s'
    end in
  go (rev p) (rev s).

(** [s.find(sub)]: the lowest index at which [sub] occurs, or [-1]. *)
Fixpoint find_from (sub s : str) (i : Z) : Z :=
  match s with
  | [] => if startswith sub [] then i else (-1)%Z
  | _ :: t => if startswith sub s then i else find_from sub t (i + 1)%Z
  end.

Definition find (sub s : str) : Z := find_from sub s 0%Z.

(** Slice bounds as Python normalises them: a negative bound counts from
    the end, and every bound is clipped to the sequence. *)
Definition norm_index (i : Z) (len : nat) : nat :=
  if (i <? 0)%Z then Z.to_nat (Z.max 0 (Z.of_nat len + i))
  else Nat.min (Z.to_nat i) len.

(** [s[a:]] *)
Definition slice_from {A} (a : Z) (s : list A) : list A :=
  skipn (norm_index a (List.length s)) s.

(** [s[a:b]] *)
Definition slice {A} (a b : Z) (s : list A) : list A :=
  let i := norm_index a (List.length s) in
  let j := norm_index b (List.length s) in
  firstn (j - i) (skipn i s).

(** [s.lstrip(...)], [s.rstrip(...)], [s.strip(...)] by a predicate on
    characters. *)
Fixpoint lstrip_by (f : codepoint -> bool) (s : str) : str :=
  match s with
  | [] => []
  | c :: t => if f c then lstrip_by f t else s
  end.

Definition rstrip_by (f : codepoint -> bool) (s : str) : str :=
  rev (lstrip_by f (rev s)).

Definition strip_by (f : codepoint -> bool) (s : str) : str :=
  rstrip_by f (lstrip_by f s).

Definition mem (chars : str) (c : codepoint) : bool :=
  existsb (N.eqb c) chars.

(** [s.strip(chars)] and [s.lstrip(chars)]: [chars] is a set of
    characters, not a prefix or suffix. *)
Definition strip_chars (chars s : str) : str := strip_by (mem chars) s.
Definition lstrip_chars (chars s : str) : str := lstrip_by (mem chars) s.

(** [c.isspace()]: the characters removed by [s.strip()] with no argument. *)
Definition isspace (c : codepoint) : bool :=
  ((9 <=? c) && (c <=? 13) || (28 <=? c) && (c <=? 32)
   || (c =? 133) || (c =? 160) || (c =? 5760)
   || (8192 <=? c) && (c <=? 8202)
   || (c =? 8232) || (c =? 8233) || (c =? 8239) || (c =? 8287)
   || (c =? 12288))%N.

(** [s.strip()] *)
Definition strip (s : str) : str := strip_by isspace s.

(** [s.split(sep)] for a one-character separator (the call sites pass
    [" "]): empty fields are kept. *)
Fixpoint split (sep : codepoint) (s : str) : list str :=
  match s with
  | [] => [[]]
  | c :: t =>
      if N.eqb c sep then [] :: split sep t
      else match split sep t with
           | h :: r => (c :: h) :: r
           | [] => [[c]]
           end
  end.

(** ** Exceptions *)

Inductive exn :=
| AssertionError
| ValueError
| IndexError
| AttributeError
| UnicodeDecodeError
| UnicodeEncodeError
| RuntimeError
| TransportError.

Inductive res (A : Type) :=
| Val (a : A)
| Raise (e : exn).

Arguments Val {A} a.
Arguments Raise {A} e.

(** ** [int(s)] on text

    Surrounding whitespace is ignored; then an optional sign and a
    non-empty run of decimal digits in which single underscores may
    separate digits.  Digits are the ASCII digits: the decimal digits of
    other scripts, which Python also accepts, are not modelled. *)

Definition digit_val (c : codepoint) : option Z :=
  if ((48 <=? c) && (c <=? 57))%N then Some (Z.of_N c - 48)%Z else None.

Fixpoint int_digits (acc : Z) (after_underscore : bool) (s : str)
  : option Z :=
  match s with
  | [] => if after_underscore then None else Some acc
  | c :: t =>
      if (c =? 95)%N then
        if after_underscore then None else int_digits acc true t
      else
        match digit_val c with
        | Some d => int_digits (10 * acc + d)%Z false t
        | None => None
        end
  end.

Definition int_unsigned (s : str) : option Z :=
  match s with
  | [] => None
  | c :: t =>
      match digit_val c with
      | Some d => int_digits d false t
      | None => None
      end
  end.

Definition py_int (s : str) : res Z :=
  let s := strip s in
  let signed :=
    match s with
    | c :: t =>
        if (c =? 45)%N then option_map Z.opp (int_unsigned t)
        else if (c =? 43)%N then int_unsigned t
        else int_unsigned s
    | [] => None
    end in
  match signed with
  | Some n => Val n
  | None => Raise ValueError
  end.

(** ** UTF-8: [bytes.decode()] and [str.encode()] *)

Definition is_cont (b : N) : bool := ((128 <=? b) && (b <=? 191))%N.

(** The second octet of a three-octet sequence: no overlong forms after
    [0xE0], no surrogates after [0xED]. *)
Definition second_of_3 (b0 b1 : N) : bool :=
  (if b0 =? 224 then (160 <=? b1) && (b1 <=? 191)
   else if b0 =? 237 then (128 <=? b1) && (b1 <=? 159)
   else is_cont b1)%N.

(** The second octet of a four-octet sequence: no overlong forms after
    [0xF0], nothing above U+10FFFF after [0xF4]. *)
Definition second_of_4 (b0 b1 : N) : bool :=
  (if b0 =? 240 then (144 <=? b1) && (b1 <=? 191)
   else if b0 =? 244 then (128 <=? b1) && (b1 <=? 143)
   else is_cont b1)%N.

Fixpoint utf8_decode (bs : bytes) : option str :=
  match bs with
  | [] => Some []
  | x0 :: r0 =>
      let b0 := Byte.to_N x0 in
      if (b0 <? 128)%N then option_map (cons b0) (utf8_decode r0)
      else
        match r0 with
        | [] => None
        | x1 :: r1 =>
            let b1 := Byte.to_N x1 in
            if ((194 <=? b0) && (b0 <=? 223))%N then
              if is_cont b1
              then option_map (cons ((b0 - 192) * 64 + (b1 - 128))%N)
                              (utf8_decode r1)
              else None
            else
              match r1 with
              | [] => None
              | x2 :: r2 =>
                  let b2 := Byte.to_N x2 in
                  if ((224 <=? b0) && (b0 <=? 239))%N then
                    if second_of_3 b0 b1 && is_cont b2
                    then option_map
                           (cons ((b0 - 224) * 4096 + (b1 - 128) * 64
                                  + (b2 - 128))%N)
                           (utf8_decode r2)
                    else None
                  else
                    match r2 with
                    | [] => None
                    | x3 :: r3 =>
                        let b3 := Byte.to_N x3 in
                        if ((240 <=? b0) && (b0 <=? 244))%N
                           && second_of_4 b0 b1 && is_cont b2 && is_cont b3
                        then option_map
                               (cons ((b0 - 240) * 262144 + (b1 - 128) * 4096
                                      + (b2 - 128) * 64 + (b3 - 128))%N)
                               (utf8_decode r3)
                        else None
                    end
              end
        end
  end.

Definition octet (n : N) : byte :=
  match Byte.of_N n with
  | Some b => b
  | None => x00
  end.

Definition utf8_encode_char (c : codepoint) : option bytes :=
  (if c <? 128 then Some [octet c]
   else if c <? 2048 then Some [octet (192 + c / 64); octet (128 + c mod 64)]
   else if c <? 65536 then
     if (55296 <=? c) && (c <=? 57343) then None
     else Some [octet (224 + c / 4096); octet (128 + (c / 64) mod 64);
                octet (128 + c mod 64)]
   else if c <? 1114112 then
     Some [octet (240 + c / 262144); octet (128 + (c / 4096) mod 64);
           octet (128 + (c / 64) mod 64); octet (128 + c mod 64)]
   else None)%N.

Fixpoint utf8_encode (s : str) : option bytes :=
  match s with
  | [] => Some []
  | c :: t =>
      match utf8_encode_char c, utf8_encode t with
      | Some b, Some r => Some (b ++ r)
      | _, _ => None
      end
  end.

(** ** Codec *)

Definition _escape (s : str) : str :=
  let s := replace [BACKSLASH] [BACKSLASH; BACKSLASH] s in
  let s := replace [CR] (pystr "\D") s in
  let s := replace [LF] (pystr "\A") s in
  s.

Definition _unescape (s : str) : str :=
  let s := replace (pystr "\A") [LF] s in
  let s := replace (pystr "\D") [CR] s in
  let s := replace [BACKSLASH; BACKSLASH] [BACKSLASH] s in
  s.

(** ** The UART and the monad of the library's methods

    The UART object is the transport.  Its behaviour is a script: the
    outcome of each successive [readline] call.  [readline] returns the
    octets received before its timeout, [None] or [b""] when there are
    none, or raises.  [write] appends to the log of written messages. *)

Inductive outcome :=
| Chunk (p : bytes)
| NoData
| Fault.

Record uart := mkUart {
  rx : nat -> outcome;
  pos : nat;
  tx : list bytes
}.

(** The script that plays [l] and then times out forever. *)
Definition script (l : list outcome) : nat -> outcome :=
  fun n => nth n l NoData.

Definition M (A : Type) : Type := uart -> res A * uart.

Definition ret {A} (a : A) : M A := fun u => (Val a, u).

Definition raise {A} (e : exn) : M A := fun u => (Raise e, u).

Definition bind {A B} (m : M A) (k : A -> M B) : M B :=
  fun u =>
    match m u with
    | (Val a, u') => k a u'
    | (Raise e, u') => (Raise e, u')
    end.

(** [try: m except Exception: h] *)
Definition catch {A} (m : M A) (h : exn -> M A) : M A :=
  fun u =>
    match m u with
    | (Val a, u') => (Val a, u')
    | (Raise e, u') => h e u'
    end.

Definition lift {A} (r : res A) : M A := fun u => (r, u).

Declare Scope monad_scope.
Delimit Scope monad_scope with monad.
Bind Scope monad_scope with M.

Notation "x <- c1 ;; c2" := (bind c1 (fun x => c2))
  (at level 61, c1 at next level, right associativity) : monad_scope.
Notation "' pat <- c1 ;; c2" :=
  (bind c1 (fun x => match x with pat => c2 end))
  (at level 61, pat pattern, c1 at next level, right associativity)
  : monad_scope.
Notation "c1 ;; c2" := (bind c1 (fun _ => c2))
  (at level 61, right associativity) : monad_scope.

Open Scope monad_scope.

(** [uart.readline()] *)
Definition uart_readline : M (option bytes) :=
  fun u =>
    let u' := mkUart (rx u) (S (pos u)) (tx u) in
    match rx u (pos u) with
    | Chunk p => (Val (Some p), u')
    | NoData => (Val None, u')
    | Fault => (Raise TransportError, u')
    end.

(** [uart.write(b)] *)
Definition uart_write (b : bytes) : M unit :=
  fun u => (Val tt, mkUart (rx u) (pos u) (tx u ++ [b])).

(** [uart.reset_input_buffer()] inside its [try]/[except AttributeError]:
    it drops what the driver had buffered before the command, which is not
    part of the script of later [readline] outcomes. *)
Definition reset_input_buffer : M unit := ret tt.

(** [l.decode()] *)
Definition decode (l : bytes) : M str :=
  match utf8_decode l with
  | Some t => ret t
  | None => raise UnicodeDecodeError
  end.

(** [s.encode()] *)
Definition encode (s : str) : M bytes :=
  match utf8_encode s with
  | Some b => ret b
  | None => raise UnicodeEncodeError
  end.

(** ** Line reader *)

(** The characters of ["\r\n\x00\xff\xfe\xfd\xfc\xfb\xfa"]. *)
Definition FILLER : str :=
  [CR; LF; 0; 255; 254; 253; 252; 251; 250]%N.

(** [if p: l += p]: [None] and [b""] are both false. *)
Definition accumulate (l : bytes) (p : option bytes) : bytes :=
  match p with
  | Some ((_ :: _) as b) => l ++ b
  | _ => l
  end.

(** The [for _ in range(counter)] loop of [_readline], from the
    accumulator [l]. *)
Fixpoint poll (counter : nat) (l : bytes) : M bytes :=
  match counter with
  | O => ret l
  | S k =>
      p <- uart_readline ;;
      let l := accumulate l p in
      if endswith Byte.eqb [x0a] l then ret l else poll k l
  end.

(** [_readline(uart, debug, delay)]; [debug] only prints and [delay] only
    sleeps. *)
Definition _readline : M str :=
  l <- poll 300 [] ;;
  l <- decode l ;;
  let l := strip_chars FILLER l in
  ret (_unescape l).

(** ** Bring-up *)

(** The probe [AT], CR, LF. *)
Definition AT : bytes := pybytes "AT" ++ [x0d; x0a].

(** One pass of the body of the self-test loop, [true] when it reaches
    [return True]. *)
Definition self_test_body : M bool :=
  uart_write AT ;;
  r <- _readline ;;
  ret (str_eqb (strip r) (pystr "OK")).

(** The same pass under its [try]/[except Exception], which lets the loop
    go on. *)
Definition self_test_attempt : M bool :=
  catch self_test_body (fun _ => ret false).

Fixpoint self_test_loop (n : nat) : M bool :=
  match n with
  | O => ret false
  | S k =>
      ok <- self_test_attempt ;;
      if ok then ret true else self_test_loop k
  end.

Definition self_test : M bool := self_test_loop 5.

(** [ExpressLink.__init__] with a ready-made [uart] object and no pins:
    the value is the [ready] attribute. *)
Definition ExpressLink_init : M bool :=
  ok <- self_test ;;
  if negb ok then ret false else ret true.

(** ** Command engine *)

(** Where [cmd] stands after the status line: it has returned, or it goes
    on to the continuation lines with these local variables. *)
Inductive status :=
| Return (r : bool * str * option Z)
| Continue (success : bool) (additional_lines : Z) (l : str)
           (error_code : option Z).

Definition parse_status (l : str) : M status :=
  if startswith (pystr "OK") l then
    let l := slice_from 2 l in
    let r := find [SPACE] l in
    if (r >? 0)%Z then
      additional_lines <- lift (py_int (slice 0 r l)) ;;
      ret (Continue true additional_lines (slice_from r l) None)
    else ret (Continue true 0%Z l None)
  else if startswith (pystr "ERR") l then
    let l := slice_from 3 l in
    let r := find [SPACE] l in
    if (r >? 0)%Z then
      error_code <- lift (py_int (slice 0 r l)) ;;
      ret (Continue false 0%Z (slice_from r l) (Some error_code))
    else ret (Return (false, l, Some 2%Z))
  else ret (Return (false, l, Some 2%Z)).

(** The [for _ in range(additional_lines)] loop. *)
Fixpoint read_additional (n : nat) (l : str) : M str :=
  match n with
  | O => ret l
  | S k =>
      al <- _readline ;;
      match al with
      | [] => ret l
      | _ :: _ => read_additional k (l ++ [LF] ++ al)
      end
  end.

(** The framed command [f"AT+{command}\r\n"]. *)
Definition frame (command : str) : str :=
  pystr "AT+" ++ command ++ [CR; LF].

Definition cmd (command : str) : M (bool * str * option Z) :=
  match command with
  | [] => raise AssertionError
  | _ :: _ =>
      reset_input_buffer ;;
      let command := _escape command in
      b <- encode (frame command) ;;
      uart_write b ;;
      l <- _readline ;;
      st <- parse_status l ;;
      match st with
      | Return r => ret r
      | Continue success additional_lines l error_code =>
          l <- read_additional (Z.to_nat additional_lines) l ;;
          ret (success, strip l, error_code)
      end
  end.

(** [r[i]] *)
Definition index {A} (r : list A) (i : nat) : M A :=
  match nth_error r i with
  | Some x => ret x
  | None => raise IndexError
  end.

(** ** Connectivity predicates *)

Definition connected : M bool :=
  '(_, line, _) <- cmd (pystr "CONNECT?") ;;
  let r := split SPACE line in
  x <- index r 0 ;;
  ret (str_eqb x (pystr "1")).

Definition onboarded : M bool :=
  '(_, line, _) <- cmd (pystr "CONNECT?") ;;
  let r := split SPACE line in
  x <- index r 1 ;;
  ret (str_eqb x (pystr "1")).

(** ** Configuration dictionary *)

Module Config.

Definition _extract_value (query : str) : M str :=
  '(success, line, _) <- cmd (pystr "CONF? " ++ query) ;;
  if (success : bool) then ret line else raise RuntimeError.

Definition Endpoint : M str := _extract_value (pystr "Endpoint").

Definition Certificate : M str :=
  v <- _extract_value (pystr "Certificate pem") ;;
  ret (strip (lstrip_chars (pystr "pem") v)).

Definition RootCA : M str :=
  v <- _extract_value (pystr "RootCA pem") ;;
  ret (strip (lstrip_chars (pystr "pem") v)).

Definition HOTAcertificate : M str :=
  v <- _extract_value (pystr "HOTAcertificate pem") ;;
  ret (strip (lstrip_chars (pystr "pem") v)).

Definition OTAcertificate : M str :=
  v <- _extract_value (pystr "OTAcertificate pem") ;;
  ret (strip (lstrip_chars (pystr "pem") v)).

End Config.

(** ** Event query *)

Fixpoint takewhile (f : codepoint -> bool) (s : str) : str :=
  match s with
  | [] => []
  | c :: t => if f c then c :: takewhile f t else []
  end.

Definition is_digit (c : codepoint) : bool :=
  match digit_val c with Some _ => true | None => false end.

Definition nonspace (c : codepoint) : bool := negb (isspace c).

(** [re.match(r"(\d+) (\d+) (\S+)( \S+)?", line)]: the four groups, or
    [None] when the line does not match.  Every repetition is greedy and
    is followed by a character outside its class, so the first match the
    engine finds takes the longest runs.  [\d] is read as the ASCII digits,
    as in [py_int]. *)
Definition match_event (line : str)
  : option (str * str * str * option str) :=
  let g1 := takewhile is_digit line in
  match g1, lstrip_by is_digit line with
  | _ :: _, sp1 :: s1 =>
      let g2 := takewhile is_digit s1 in
      match g2, lstrip_by is_digit s1 with
      | _ :: _, sp2 :: s2 =>
          let g3 := takewhile nonspace s2 in
          match g3 with
          | _ :: _ =>
              if ((sp1 =? SPACE) && (sp2 =? SPACE))%N then
                let g4 :=
                  match lstrip_by nonspace s2 with
                  | sp3 :: s3 =>
                      match takewhile nonspace s3 with
                      | (_ :: _) as d =>
                          if (sp3 =? SPACE)%N then Some (sp3 :: d) else None
                      | [] => None
                      end
                  | [] => None
                  end in
                Some (g1, g2, g3, g4)
              else None
          | [] => None
          end
      | _, _ => None
      end
  | _, _ => None
  end.

Definition no_event : option Z * option Z * option str * option str :=
  (None, None, None, None).

(** [get_event]; [event_signal] is [None] without an EVENT pin and
    [Some level] with one.  The three [update()] calls refresh the
    debouncer and touch neither the UART nor the result. *)
Definition get_event (event_signal : option bool)
  : M (option Z * option Z * option str * option str) :=
  match event_signal with
  | Some false => ret no_event
  | _ =>
      '(success, line, _) <- cmd (pystr "EVENT?") ;;
      if (success && str_eqb line []) || negb success then ret no_event
      else
        match match_event line with
        | None => raise AttributeError
        | Some (event_id, parameter, mnemonic, detail) =>
            i <- lift (py_int event_id) ;;
            p <- lift (py_int parameter) ;;
            ret (Some i, Some p, Some mnemonic, detail)
        end
  end.

(** ** Running the methods against a scripted UART *)

(** A UART at the start of the script [l], with nothing written yet. *)
Definition scripted (l : list outcome) : uart := mkUart (script l) 0 [].

(** A line as the module sends it, with its CR LF terminator. *)
Definition wire (s : string) : outcome :=
  Chunk (pybytes s ++ [x0d; x0a]).

Arguments wire s%_string.

(** The same with a bare LF terminator. *)
Definition wire_lf (s : string) : outcome :=
  Chunk (pybytes s ++ [x0a]).

Arguments wire_lf s%_string.

(** * Vocabulary of the statements *)

(** The part of [cmd] that follows the write: the status line, the
    continuation lines, the result. *)
Definition read_response : M (bool * str * option Z) :=
  l <- _readline ;;
  st <- parse_status l ;;
  match st with
  | Return r => ret r
  | Continue success additional_lines l error_code =>
      l <- read_additional (Z.to_nat additional_lines) l ;;
      ret (success, strip l, error_code)
  end.

(** The UART once [b] has been written to it. *)
Definition written (b : bytes) (u : uart) : uart := snd (uart_write b u).

(** A command [cmd] accepts: not empty, and its frame has an encoding. *)
Definition sendable (command : str) (b : bytes) : Prop :=
  command <> [] /\ utf8_encode (frame (_escape command)) = Some b.

(** The text [s] with each backslash, CR and LF rendered as [eb], [ec]
    and [el]: the shape of a text at each stage of escaping and
    unescaping. *)
Definition render_char (eb ec el : str) (c : codepoint) : str :=
  if (c =? BACKSLASH)%N then eb
  else if (c =? CR)%N then ec
  else if (c =? LF)%N then el
  else [c].

Definition render (eb ec el : str) (s : str) : str :=
  flat_map (render_char eb ec el) s.

(** The text [w] starts with the character [x]. *)
Definition next_is (x : codepoint) (w : str) : bool :=
  match w with
  | c :: _ => (c =? x)%N
  | [] => false
  end.

(** No backslash of [s] is directly followed by [x]. *)
Fixpoint clash_free (x : codepoint) (s : str) : bool :=
  match s with
  | [] => true
  | c :: t => negb ((c =? BACKSLASH)%N && next_is x t) && clash_free x t
  end.

(** Occurrences of the character [x] in [w]. *)
Fixpoint cnt (x : codepoint) (w : str) : nat :=
  match w with
  | [] => 0
  | c :: t => (if (c =? x)%N then 1 else 0) + cnt x t
  end.

(** Places of [w] where [a] is directly followed by [b]. *)
Fixpoint pairs (a b : codepoint) (w : str) : nat :=
  match w with
  | [] => 0
  | c :: t => (if (c =? a)%N && next_is b t then 1 else 0) + pairs a b t
  end.

(** What a [readline] outcome hands to the loop, when it does not raise. *)
Definition received (o : outcome) : option bytes :=
  match o with
  | Chunk p => Some p
  | _ => None
  end.

(** The accumulator after [n] polls of the script [rx] from position
    [start], none of which raises. *)
Fixpoint accumulated (rx : nat -> outcome) (start n : nat) (l : bytes)
  : bytes :=
  match n with
  | O => l
  | S k => accumulated rx (S start) k (accumulate l (received (rx start)))
  end.

(** The numeric code of an [ERR] line: the text between the token and the
    first space, read by [int]. *)
Definition err_code (l : str) : res Z :=
  let l := slice_from 3 l in
  py_int (slice 0 (find [SPACE] l) l).

(** The status line a command was answered with: the first line read
    after the frame was written. *)
Definition status_line (command : str) (u : uart) (l : str) : Prop :=
  exists b u1, sendable command b /\ _readline (written b u) = (Val l, u1).

(** The UART after [k] passes of the self-test loop body. *)
Fixpoint after_attempts (u : uart) (k : nat) {struct k} : uart :=
  match k with
  | O => u
  | S k' => after_attempts (snd (self_test_body u)) k'
  end.

(** What a PEM getter returns from a successful payload. *)
Definition pem_value (line : str) : str :=
  strip (lstrip_chars (pystr "pem") line).

(** The getter [g] reads the key [query] and returns the [pem_value] of a
    successful payload. *)
Definition pem_getter_of (g : M str) (query : str) : Prop :=
  forall u line e u',
    cmd (pystr "CONF? " ++ query) u = (Val (true, line, e), u') ->
    g u = (Val (pem_value line), u').

(** * More of the library *)

(** ** [str(n)] on integers *)

Fixpoint uint_digits (d : Decimal.uint) : str :=
  match d with
  | Decimal.Nil => []
  | Decimal.D0 l => 48%N :: uint_digits l
  | Decimal.D1 l => 49%N :: uint_digits l
  | Decimal.D2 l => 50%N :: uint_digits l
  | Decimal.D3 l => 51%N :: uint_digits l
  | Decimal.D4 l => 52%N :: uint_digits l
  | Decimal.D5 l => 53%N :: uint_digits l
  | Decimal.D6 l => 54%N :: uint_digits l
  | Decimal.D7 l => 55%N :: uint_digits l
  | Decimal.D8 l => 56%N :: uint_digits l
  | Decimal.D9 l => 57%N :: uint_digits l
  end.

(** The decimal text of an integer: no leading zeros, a minus sign for a
    negative number. *)
Definition py_str_int (z : Z) : str :=
  match z with
  | Z0 => pystr "0"
  | Zpos p => uint_digits (Pos.to_uint p)
  | Zneg p => 45%N :: uint_digits (Pos.to_uint p)
  end.

(** ** More of the configuration dictionary: methods of [Config] *)

Module ConfigMore.

(** [Config._set_value] *)
Definition _set_value (key value : str) : M str :=
  '(success, line, _) <- cmd (pystr "CONF " ++ key ++ pystr "=" ++ value) ;;
  if (success : bool) then ret line else raise RuntimeError.





(** [bool(s)] on text *)
Definition bool_of_str (s : str) : bool :=
  match s with
  | [] => false
  | _ :: _ => true
  end.

Definition EnableShadow : M bool :=
  v <- Config._extract_value (pystr "EnableShadow") ;;
  ret (bool_of_str v).

(** The setter takes a [bool] or an [int]; [bool(value)] of an integer is
    whether it is not zero, and [True] and [False] are the integers 1
    and 0. *)
Definition shadow_flag (value : Z) : str :=
  if negb (value =? 0)%Z then pystr "1" else pystr "0".

Definition set_EnableShadow (value : Z) : M str :=
  _set_value (pystr "EnableShadow") (shadow_flag value).

End ConfigMore.

(** ** The host-side topic table

    [Config._topics] is a dictionary from topic index to topic name, kept
    by the object next to the UART.  Methods that touch it run in a second
    monad whose state is the pair of both; a dictionary lookup adds
    [KeyError] to the exceptions. *)

Definition dict := list (Z * str).

(** [d[k]] as a lookup: the value, or nothing for a missing key. *)
Fixpoint dict_get (k : Z) (d : dict) : option str :=
  match d with
  | [] => None
  | (k', v) :: r => if (k =? k')%Z then Some v else dict_get k r
  end.

(** [d[k] = v]: an existing key keeps its place, a new one goes last. *)
Fixpoint dict_set (k : Z) (v : str) (d : dict) : dict :=
  match d with
  | [] => [(k, v)]
  | (k', v') :: r =>
      if (k =? k')%Z then (k, v) :: r else (k', v') :: dict_set k v r
  end.

Record host := mkHost {
  link : uart;
  _topics : dict
}.

Inductive failure :=
| Exn (e : exn)
| KeyError.

Inductive outcome_of (A : Type) :=
| Done (a : A)
| Failed (f : failure).

Arguments Done {A} a.
Arguments Failed {A} f.

Definition H (A : Type) : Type := host -> outcome_of A * host.

Definition hret {A} (a : A) : H A := fun h => (Done a, h).

Definition hraise {A} (f : failure) : H A := fun h => (Failed f, h).

Definition hbind {A B} (m : H A) (k : A -> H B) : H B :=
  fun h =>
    match m h with
    | (Done a, h') => k a h'
    | (Failed f, h') => (Failed f, h')
    end.

(** A method of the UART layer, run on the host's UART. *)
Definition on_link {A} (m : M A) : H A :=
  fun h =>
    match m (link h) with
    | (Val a, u') => (Done a, mkHost u' (_topics h))
    | (Raise e, u') => (Failed (Exn e), mkHost u' (_topics h))
    end.

(** [self._topics[k] = v] *)
Definition remember (k : Z) (v : str) : H unit :=
  fun h => (Done tt, mkHost (link h) (dict_set k v (_topics h))).

(** [self.config.topics[k]] *)
Definition recall (k : Z) : H str :=
  fun h =>
    match dict_get k (_topics h) with
    | Some v => (Done v, h)
    | None => (Failed KeyError, h)
    end.

Declare Scope host_scope.
Delimit Scope host_scope with host.
Bind Scope host_scope with H.

Notation "x <- c1 ;; c2" := (hbind c1 (fun x => c2))
  (at level 61, c1 at next level, right associativity) : host_scope.
Notation "' pat <- c1 ;; c2" :=
  (hbind c1 (fun x => match x with pat => c2 end))
  (at level 61, pat pattern, c1 at next level, right associativity)
  : host_scope.
Notation "c1 ;; c2" := (hbind c1 (fun _ => c2))
  (at level 61, right associativity) : host_scope.

(** A value of one of the types the message getter returns. *)
Inductive pyval :=
| PNone
| PBool (b : bool)
| PInt (z : Z)
| PStr (s : str).

(** [error_code] as a value. *)
Definition pyval_of_code (e : option Z) : pyval :=
  match e with
  | Some z => PInt z
  | None => PNone
  end.

(** [str(x)] of an optional integer inside an f-string. *)
Definition fmt_index (i : option Z) : str :=
  match i with
  | Some z => py_str_int z
  | None => pystr "None"
  end.

(** Truth of an optional integer and of an optional text. *)
Definition index_given (i : option Z) : bool :=
  match i with
  | Some z => negb (z =? 0)%Z
  | None => false
  end.

Definition name_given (n : option str) : bool :=
  match n with
  | Some (_ :: _) => true
  | _ => false
  end.

(** [line.split("\n", 1)] unpacked into two names: the text before the
    first LF and the text after it; without an LF the unpacking raises
    [ValueError]. *)
Fixpoint split_once (sep : codepoint) (s : str) : option (str * str) :=
  match s with
  | [] => None
  | c :: t =>
      if (c =? sep)%N then Some ([], t)
      else match split_once sep t with
           | Some (a, b) => Some (c :: a, b)
           | None => None
           end
  end.

(** ** Topics and messages *)

Module Topics.

Local Open Scope host_scope.

(** [Config.get_topic] *)
Definition get_topic (topic_index : Z) : H str :=
  (topic_name <- on_link (Config._extract_value
                            (pystr "Topic" ++ py_str_int topic_index)) ;;
   remember topic_index topic_name ;;
   hret topic_name).

(** [Config.set_topic] *)
Definition set_topic (topic_index : Z) (topic_name : str) : H str :=
  (let topic_name := strip topic_name in
   remember topic_index topic_name ;;
   on_link (ConfigMore._set_value
              (pystr "Topic" ++ py_str_int topic_index) topic_name)).

(** [self.config.topics.values().index(topic_name)]: the view that
    [dict.values()] returns has no [index] method. *)
Definition index_of_name (topic_name : option str) : H Z :=
  hraise (Exn AttributeError).

(** [ExpressLink.subscribe] *)
Definition subscribe (topic_index : Z) (topic_name : str)
  : H (bool * str * option Z) :=
  (set_topic topic_index topic_name ;;
   on_link (cmd (pystr "SUBSCRIBE" ++ py_str_int topic_index))).

(** [ExpressLink.unsubscribe] *)
Definition unsubscribe (topic_index : option Z) (topic_name : option str)
  : H (bool * str * option Z) :=
  (topic_index <-
     (if name_given topic_name && negb (index_given topic_index)
      then (i <- index_of_name topic_name ;; hret (Some i))
      else hret topic_index) ;;
   on_link (cmd (pystr "UNSUBSCRIBE" ++ fmt_index topic_index))).

(** [ExpressLink.publish]; [message] is [None] when not passed. *)
Definition publish (topic_index : option Z) (topic_name : option str)
           (message : option str) : H (bool * str * option Z) :=
  match message with
  | Some ((_ :: _) as message) =>
      (topic_index <-
         (if name_given topic_name && negb (index_given topic_index)
          then (i <- index_of_name topic_name ;; hret (Some i))
          else hret topic_index) ;;
       on_link (cmd (pystr "SEND" ++ fmt_index topic_index
                     ++ pystr " " ++ message)))%host
  | _ => hraise (Exn AssertionError)
  end.

(** The local [topic_index] of [get_message] after its first statement:
    an integer or the empty text. *)
Inductive index_or_empty :=
| Index (z : Z)
| Empty.

(** What an optional text is as a value. *)
Definition pyval_of_name (n : option str) : pyval :=
  match n with
  | Some s => PStr s
  | None => PNone
  end.

(** [ExpressLink.get_message] *)
Definition get_message (topic_index : option Z) (topic_name : option str)
  : H (pyval * pyval) :=
  '(topic_index, topic_name) <-
     (if name_given topic_name && negb (index_given topic_index) then
        i <- index_of_name topic_name ;;
        hret (Index i, pyval_of_name topic_name)
      else
        match topic_index with
        | Some z =>
            if negb (z =? 0)%Z && (z >? 0)%Z then
              n <- recall z ;; hret (Index z, PStr n)
            else hret (Index z, pyval_of_name topic_name)
        | None => hret (Empty, pyval_of_name topic_name)
        end) ;;
  '(success, line, error_code) <-
     on_link (cmd (pystr "GET" ++ match topic_index with
                                  | Index z => py_str_int z
                                  | Empty => []
                                  end)) ;;
  if match topic_index with
     | Empty => true
     | Index z => (z =? 0)%Z
     end
  then
    if (success : bool) && ConfigMore.bool_of_str line then
      match split_once LF line with
      | Some (topic_name, message) => hret (PStr topic_name, PStr message)
      | None => hraise (Exn ValueError)
      end
    else hret (PBool true, PNone)
  else
    if success then hret (topic_name, PStr line)
    else hret (PBool false, pyval_of_code error_code).

End Topics.

(** ** OTA state *)


(** * More vocabulary *)


(** The computation [m] leaves the script and the write log alone and
    calls [readline] at most [n] times. *)
Definition reads_at_most {A} (n : nat) (m : M A) : Prop :=
  forall u,
    rx (snd (m u)) = rx u /\ tx (snd (m u)) = tx u /\
    pos u <= pos (snd (m u)) <= pos u + n.

(** The number of continuation lines the status line [l] declares. *)
Definition declared_lines (l : str) : nat :=
  if startswith (pystr "OK") l then
    let l := slice_from 2 l in
    let r := find [SPACE] l in
    if (r >? 0)%Z then
      match py_int (slice 0 r l) with
      | Val n => Z.to_nat n
      | Raise _ => 0
      end
    else 0
  else 0.

(** What [cmd] does once the status line is parsed. *)
Definition finish (st : status) : M (bool * str * option Z) :=
  match st with
  | Return r => ret r
  | Continue success additional_lines l error_code =>
      l <- read_additional (Z.to_nat additional_lines) l ;;
      ret (success, strip l, error_code)
  end.

(** Occurrences of the octet [x] in [b]. *)
Fixpoint bcnt (x : byte) (b : bytes) : nat :=
  match b with
  | [] => 0
  | y :: t => (if Byte.eqb y x then 1 else 0) + bcnt x t
  end.

(** [get_message] is called without an index, or with index 0. *)
Definition unassigned_index (topic_index : option Z) : Prop :=
  topic_index = None \/ topic_index = Some 0%Z.


(** A character that is ASCII and needs no escaping. *)
Definition plain (c : codepoint) : bool :=
  ((c <? 128) && negb (c =? BACKSLASH) && negb (c =? CR)
   && negb (c =? LF))%N.


(** * Properties *)

(** ** The monad *)

Lemma bind_val {A B} (m : M A) (k : A -> M B) u a u' :
  m u = (Val a, u') -> bind m k u = k a u'.
Proof. intros H. unfold bind. now rewrite H. Qed.

Lemma bind_raise {A B} (m : M A) (k : A -> M B) u e u' :
  m u = (Raise e, u') -> bind m k u = (Raise e, u').
Proof. intros H. unfold bind. now rewrite H. Qed.

Lemma bind_inv {A B} (m : M A) (k : A -> M B) u b u' :
  bind m k u = (Val b, u') ->
  exists a u1, m u = (Val a, u1) /\ k a u1 = (Val b, u').
Proof.
  unfold bind. destruct (m u) as [[a|e] u1]; intros H.
  - now exists a, u1.
  - discriminate.
Qed.

(** ** The command frame *)

Lemma cmd_unfold command b u :
  sendable command b -> cmd command u = read_response (written b u).
Proof.
  intros [Hne Henc]. destruct command as [|c t]; [congruence|].
  unfold cmd, encode. rewrite Henc.
  cbv [bind ret uart_write written read_response snd reset_input_buffer].
  reflexivity.
Qed.

Lemma sendable_ascii_example :
  sendable (pystr "CONNECT?") (pybytes "AT+CONNECT?" ++ [x0d; x0a]).
Proof. split; [discriminate | reflexivity]. Qed.

(** ** The repository's tests, replayed

    Each test builds the object on a mock UART, which runs the self-test,
    and then calls one method; the mock checks the messages written. *)

Example test_self_test :
  ExpressLink_init (scripted [wire "OK"])
  = (Val true, mkUart (script [wire "OK"]) 1 [AT]) /\
  ExpressLink_init (scripted [wire_lf "OK"])
  = (Val true, mkUart (script [wire_lf "OK"]) 1 [AT]).
Proof. vm_compute. split; reflexivity. Qed.

Example test_config_get_endpoint :
  let responses := [wire "OK"; wire "OK foobar.example.com"] in
  (ExpressLink_init ;; Config.Endpoint) (scripted responses)
  = (Val (pystr "foobar.example.com"),
     mkUart (script responses) 2
            [AT; pybytes "AT+CONF? Endpoint" ++ [x0d; x0a]]).
Proof. vm_compute. reflexivity. Qed.

Example test_connect :
  let responses := [wire "OK"; wire "OK CONNECTED"] in
  (ExpressLink_init ;; cmd (pystr "CONNECT")) (scripted responses)
  = (Val (true, pystr "CONNECTED", None),
     mkUart (script responses) 2
            [AT; pybytes "AT+CONNECT" ++ [x0d; x0a]]).
Proof. vm_compute. reflexivity. Qed.

Example test_connected :
  fst ((ExpressLink_init ;; connected)
         (scripted [wire "OK"; wire "OK 1 0 foo bar"])) = Val true /\
  fst ((ExpressLink_init ;; connected)
         (scripted [wire "OK"; wire "OK 0 0 foo bar"])) = Val false.
Proof. vm_compute. split; reflexivity. Qed.

Example test_onboarded :
  fst ((ExpressLink_init ;; onboarded)
         (scripted [wire "OK"; wire "OK 0 1 foo bar"])) = Val true /\
  fst ((ExpressLink_init ;; onboarded)
         (scripted [wire "OK"; wire "OK 0 0 foo bar"])) = Val false.
Proof. vm_compute. split; reflexivity. Qed.

(** ** Codec *)

Example escape_test :
  _escape (pystr "foo" ++ [LF] ++ pystr "bar" ++ [CR] ++ pystr "some\thing")
  = pystr "foo\Abar\Dsome\\thing".
Proof. reflexivity. Qed.

Example unescape_test :
  _unescape (pystr "foo\Abar\Dsome\\thing")
  = pystr "foo" ++ [LF] ++ pystr "bar" ++ [CR] ++ pystr "some\thing".
Proof. reflexivity. Qed.

(** C1, at the input backslash-A.  Escaping doubles the backslash; the
    first pass of [_unescape] then reads the second backslash and the [A]
    as an escaped line feed, so the round trip returns backslash, line
    feed instead of the two characters it started from. *)
Theorem unescape_escape_backslash_A :
  _escape (pystr "\A") = pystr "\\A" /\
  _unescape (_escape (pystr "\A")) = [BACKSLASH; LF] /\
  _unescape (_escape (pystr "\A")) <> pystr "\A".
Proof.
  split; [reflexivity | split; [reflexivity | discriminate]].
Qed.

(** *** When the round trip holds *)

Lemma replace_char a new s :
  replace [a] new s = flat_map (fun c => if (a =? c)%N then new else [c]) s.
Proof.
  unfold replace. induction s as [|c t IH]; [reflexivity|].
  cbn [replace_from startswith flat_map List.length Nat.sub].
  rewrite andb_true_r.
  destruct (a =? c)%N; rewrite IH; reflexivity.
Qed.

Lemma replace_pair_hit a b new w :
  replace [a; b] new (a :: b :: w) = new ++ replace [a; b] new w.
Proof.
  unfold replace.
  cbn [replace_from startswith List.length Nat.sub].
  now rewrite !N.eqb_refl.
Qed.

Lemma replace_pair_miss a b new c w :
  (c =? a)%N && next_is b w = false ->
  replace [a; b] new (c :: w) = c :: replace [a; b] new w.
Proof.
  intros H. unfold replace.
  cbn [replace_from startswith].
  rewrite (N.eqb_sym a c).
  destruct w as [|c' w'].
  - now rewrite andb_false_r.
  - cbn [next_is] in H. rewrite (N.eqb_sym b c'), andb_true_r. now rewrite H.
Qed.

Lemma render_cons eb ec el c t :
  render eb ec el (c :: t) = render_char eb ec el c ++ render eb ec el t.
Proof. reflexivity. Qed.

Lemma render_char_backslash eb ec el : render_char eb ec el BACKSLASH = eb.
Proof. reflexivity. Qed.

Lemma render_char_CR eb ec el : render_char eb ec el CR = ec.
Proof. reflexivity. Qed.

Lemma render_char_LF eb ec el : render_char eb ec el LF = el.
Proof. reflexivity. Qed.

Lemma render_char_other eb ec el c :
  c <> BACKSLASH -> c <> CR -> c <> LF -> render_char eb ec el c = [c].
Proof.
  intros Hb Hc Hl. unfold render_char.
  apply N.eqb_neq in Hb, Hc, Hl. now rewrite Hb, Hc, Hl.
Qed.

Lemma escape_render s :
  _escape s = render [BACKSLASH; BACKSLASH] (pystr "\D") (pystr "\A") s.
Proof.
  unfold _escape. rewrite !replace_char. unfold render.
  induction s as [|c t IH]; [reflexivity|].
  cbn [flat_map]. rewrite !flat_map_app. f_equal; [|exact IH].
  unfold render_char.
  destruct (N.eqb_spec c BACKSLASH) as [->|Hb]; [reflexivity|].
  destruct (N.eqb_spec c CR) as [->|Hc]; [reflexivity|].
  destruct (N.eqb_spec c LF) as [->|Hl]; [reflexivity|].
  apply N.eqb_neq in Hb, Hc, Hl.
  rewrite (N.eqb_sym BACKSLASH c), Hb. cbn [flat_map app].
  rewrite (N.eqb_sym CR c), Hc. cbn [flat_map app].
  rewrite (N.eqb_sym LF c), Hl. reflexivity.
Qed.

(** A rendering starts with [x] only if the text does or one of the three
    renderings does. *)
Lemma next_is_render x eb ec el t :
  next_is x (eb ++ [x]) = false -> next_is x (ec ++ [x]) = false ->
  next_is x (el ++ [x]) = false ->
  next_is x t = false -> next_is x (render eb ec el t) = false.
Proof.
  intros Hb Hc Hl Ht. destruct t as [|c t]; [reflexivity|].
  rewrite render_cons. unfold render_char. cbn [next_is] in Ht.
  destruct (c =? BACKSLASH)%N; [|destruct (c =? CR)%N; [|destruct (c =? LF)%N]].
  - destruct eb; cbn in *; [now rewrite N.eqb_refl in Hb | exact Hb].
  - destruct ec; cbn in *; [now rewrite N.eqb_refl in Hc | exact Hc].
  - destruct el; cbn in *; [now rewrite N.eqb_refl in Hl | exact Hl].
  - exact Ht.
Qed.

Ltac split_char c :=
  destruct (N.eqb_spec c BACKSLASH) as [->|?];
  [| destruct (N.eqb_spec c CR) as [->|?];
     [| destruct (N.eqb_spec c LF) as [->|?]]].

(** First pass of [_unescape]: backslash-A becomes LF. *)
Lemma unescape_pass_LF s :
  clash_free 65%N s = true ->
  replace (pystr "\A") [LF]
          (render [BACKSLASH; BACKSLASH] (pystr "\D") (pystr "\A") s)
  = render [BACKSLASH; BACKSLASH] (pystr "\D") [LF] s.
Proof.
  change (pystr "\A") with [BACKSLASH; 65%N].
  change (pystr "\D") with [BACKSLASH; 68%N].
  induction s as [|c t IH]; [reflexivity|].
  intros H. cbn [clash_free] in H. apply andb_true_iff in H.
  destruct H as [Hc Ht]. specialize (IH Ht).
  rewrite !render_cons. split_char c.
  - rewrite !render_char_backslash. cbn [app].
    rewrite replace_pair_miss by reflexivity.
    rewrite replace_pair_miss; [repeat f_equal; exact IH|].
    rewrite next_is_render; try reflexivity.
    cbn in Hc. now destruct (next_is 65%N t).
  - rewrite !render_char_CR. cbn [app].
    rewrite replace_pair_miss by reflexivity.
    rewrite replace_pair_miss by reflexivity. repeat f_equal; exact IH.
  - rewrite !render_char_LF. cbn [app].
    rewrite replace_pair_hit. cbn [app]. repeat f_equal; exact IH.
  - rewrite !render_char_other by assumption. cbn [app].
    rewrite replace_pair_miss; [repeat f_equal; exact IH|].
    apply andb_false_iff. left. now apply N.eqb_neq.
Qed.

(** Second pass: backslash-D becomes CR. *)
Lemma unescape_pass_CR s :
  clash_free 68%N s = true ->
  replace (pystr "\D") [CR]
          (render [BACKSLASH; BACKSLASH] (pystr "\D") [LF] s)
  = render [BACKSLASH; BACKSLASH] [CR] [LF] s.
Proof.
  change (pystr "\D") with [BACKSLASH; 68%N].
  induction s as [|c t IH]; [reflexivity|].
  intros H. cbn [clash_free] in H. apply andb_true_iff in H.
  destruct H as [Hc Ht]. specialize (IH Ht).
  rewrite !render_cons. split_char c.
  - rewrite !render_char_backslash. cbn [app].
    rewrite replace_pair_miss by reflexivity.
    rewrite replace_pair_miss; [repeat f_equal; exact IH|].
    rewrite next_is_render; try reflexivity.
    cbn in Hc. now destruct (next_is 68%N t).
  - rewrite !render_char_CR. cbn [app].
    rewrite replace_pair_hit. cbn [app]. repeat f_equal; exact IH.
  - rewrite !render_char_LF. cbn [app].
    rewrite replace_pair_miss by reflexivity. repeat f_equal; exact IH.
  - rewrite !render_char_other by assumption. cbn [app].
    rewrite replace_pair_miss; [repeat f_equal; exact IH|].
    apply andb_false_iff. left. now apply N.eqb_neq.
Qed.

(** Third pass: a doubled backslash becomes one; nothing can go wrong
    here. *)
Lemma unescape_pass_backslash s :
  replace [BACKSLASH; BACKSLASH] [BACKSLASH]
          (render [BACKSLASH; BACKSLASH] [CR] [LF] s)
  = s.
Proof.
  induction s as [|c t IH]; [reflexivity|].
  rewrite !render_cons. split_char c.
  - rewrite !render_char_backslash. cbn [app].
    rewrite replace_pair_hit. cbn [app]. repeat f_equal; exact IH.
  - rewrite !render_char_CR. cbn [app].
    rewrite replace_pair_miss by reflexivity. repeat f_equal; exact IH.
  - rewrite !render_char_LF. cbn [app].
    rewrite replace_pair_miss by reflexivity. repeat f_equal; exact IH.
  - rewrite !render_char_other by assumption. cbn [app].
    rewrite replace_pair_miss; [repeat f_equal; exact IH|].
    apply andb_false_iff. left. now apply N.eqb_neq.
Qed.

(** The round trip holds for every text in which no backslash is directly
    followed by [A] or [D]. *)
Theorem unescape_escape_clash_free s :
  clash_free 65%N s = true -> clash_free 68%N s = true ->
  _unescape (_escape s) = s.
Proof.
  intros HA HD. rewrite escape_render. unfold _unescape.
  rewrite unescape_pass_LF by exact HA.
  rewrite unescape_pass_CR by exact HD.
  apply unescape_pass_backslash.
Qed.

Lemma unescape_escape_clash_free_witness :
  let s := pystr "foo" ++ [LF] ++ pystr "bar" ++ [CR] ++ pystr "some\thing" in
  _escape s = pystr "foo\Abar\Dsome\\thing" /\ _unescape (_escape s) = s.
Proof.
  intros s. split; [reflexivity|].
  apply unescape_escape_clash_free; reflexivity.
Defined.

(** *** And only then *)

Lemma cnt_app x v w : cnt x (v ++ w) = cnt x v + cnt x w.
Proof.
  induction v as [|c v IH]; [reflexivity|].
  cbn [app cnt]. rewrite IH. lia.
Qed.

Lemma clash_free_pairs x s : clash_free x s = true <-> pairs BACKSLASH x s = 0.
Proof.
  induction s as [|c t IH]; [now split|].
  cbn [clash_free pairs].
  destruct ((c =? BACKSLASH)%N && next_is x t); cbn [negb andb].
  - split; [discriminate | lia].
  - rewrite IH. split; lia.
Qed.

(** Induction on texts that may step over two characters at once. *)
Lemma str_length_ind (P : str -> Prop) :
  (forall w, (forall v, List.length v < List.length w -> P v) -> P w) ->
  forall w, P w.
Proof.
  intros H w.
  assert (G : forall n v, List.length v < n -> P v).
  { induction n as [|n IH]; intros v Hv; [lia|].
    apply H. intros v' Hv'. apply IH. lia. }
  apply (G (S (List.length w))). lia.
Qed.

(** The two ways a pair replacement can go at the head of a text. *)
Lemma replace_pair_cases a b new w :
  w = [] \/
  (exists c t, w = c :: t /\
     replace [a; b] new w = c :: replace [a; b] new t /\
     (c =? a)%N && next_is b t = false) \/
  (exists t, w = a :: b :: t /\
     replace [a; b] new w = new ++ replace [a; b] new t).
Proof.
  destruct w as [|c t]; [now left|]. right.
  destruct ((c =? a)%N && next_is b t) eqn:E.
  - right. apply andb_true_iff in E. destruct E as [Ea Eb].
    apply N.eqb_eq in Ea. subst c.
    destruct t as [|c' t']; [discriminate|].
    cbn [next_is] in Eb. apply N.eqb_eq in Eb. subst c'.
    exists t'. split; [reflexivity | apply replace_pair_hit].
  - left. exists c, t. split; [reflexivity|].
    split; [now apply replace_pair_miss | exact E].
Qed.

(** A pair replacement leaves the count of a character alone when the
    character belongs neither to the pair nor to the replacement. *)
Lemma cnt_replace_pair_other x a b new w :
  x <> a -> x <> b -> cnt x new = 0 ->
  cnt x (replace [a; b] new w) = cnt x w.
Proof.
  intros Ha Hb Hn. induction w as [w IH] using str_length_ind.
  destruct (replace_pair_cases a b new w)
    as [-> | [(c & t & -> & R & _) | (t & -> & R)]].
  - reflexivity.
  - rewrite R. cbn [cnt]. rewrite IH by (cbn; lia). reflexivity.
  - rewrite R, cnt_app, Hn. cbn [cnt].
    rewrite IH by (cbn; lia).
    apply not_eq_sym in Ha, Hb. apply N.eqb_neq in Ha, Hb.
    now rewrite Ha, Hb.
Qed.

(** It lowers the count of the second character of the pair by one for
    each place where the pair stood. *)
Lemma cnt_replace_pair_second a b new w :
  a <> b -> cnt b new = 0 ->
  cnt b (replace [a; b] new w) + pairs a b w = cnt b w.
Proof.
  intros Hab Hn. induction w as [w IH] using str_length_ind.
  destruct (replace_pair_cases a b new w)
    as [-> | [(c & t & -> & R & E) | (t & -> & R)]].
  - reflexivity.
  - rewrite R. cbn [cnt pairs]. rewrite E.
    specialize (IH t ltac:(cbn; lia)). lia.
  - rewrite R, cnt_app, Hn. cbn [cnt pairs next_is].
    specialize (IH t ltac:(cbn; lia)).
    rewrite !N.eqb_refl. cbn [andb].
    assert (Hba : (b =? a)%N = false) by (apply N.eqb_neq; congruence).
    assert (Hab' : (a =? b)%N = false) by (now apply N.eqb_neq).
    rewrite Hba, Hab'. cbn [andb]. lia.
Qed.

Lemma next_is_render_eq x eb ec el t :
  x <> BACKSLASH -> x <> CR -> x <> LF ->
  next_is x (eb ++ [x]) = false -> next_is x (ec ++ [x]) = false ->
  next_is x (el ++ [x]) = false ->
  next_is x (render eb ec el t) = next_is x t.
Proof.
  intros Nb Nc Nl Hb Hc Hl. destruct t as [|c t]; [reflexivity|].
  rewrite render_cons. cbn [next_is]. split_char c.
  - rewrite render_char_backslash.
    replace (BACKSLASH =? x)%N with false
      by (symmetry; apply N.eqb_neq; congruence).
    destruct eb; cbn in *; [now rewrite N.eqb_refl in Hb | exact Hb].
  - rewrite render_char_CR.
    replace (CR =? x)%N with false
      by (symmetry; apply N.eqb_neq; congruence).
    destruct ec; cbn in *; [now rewrite N.eqb_refl in Hc | exact Hc].
  - rewrite render_char_LF.
    replace (LF =? x)%N with false
      by (symmetry; apply N.eqb_neq; congruence).
    destruct el; cbn in *; [now rewrite N.eqb_refl in Hl | exact Hl].
  - rewrite render_char_other by assumption. reflexivity.
Qed.

(** Evaluate the comparisons of character constants in the goal. *)
Ltac eqb_consts :=
  repeat match goal with
         | |- context [(?a =? ?b)%N] =>
             tryif (first [is_var a | is_var b]) then fail
             else (let v := eval vm_compute in (a =? b)%N in
                   change (a =? b)%N with v)
         end;
  cbv iota.

Lemma eqb_other c x : c <> x -> (c =? x)%N = false.
Proof. apply N.eqb_neq. Qed.

(** Escaping adds one [A] for each LF, and one backslash-[A] pair. *)
Lemma cnt_A_escaped s :
  cnt 65%N (render [BACKSLASH; BACKSLASH] (pystr "\D") (pystr "\A") s)
  = cnt 65%N s + cnt LF s.
Proof.
  change (pystr "\A") with [BACKSLASH; 65%N].
  change (pystr "\D") with [BACKSLASH; 68%N].
  induction s as [|c t IH]; [reflexivity|].
  rewrite render_cons, cnt_app, IH. split_char c.
  - rewrite render_char_backslash. cbn [cnt]. eqb_consts. lia.
  - rewrite render_char_CR. cbn [cnt]. eqb_consts. lia.
  - rewrite render_char_LF. cbn [cnt]. eqb_consts. lia.
  - rewrite render_char_other by assumption. cbn [cnt].
    rewrite (eqb_other (x:=LF)) by assumption. lia.
Qed.

Lemma pairs_A_escaped s :
  pairs BACKSLASH 65%N
        (render [BACKSLASH; BACKSLASH] (pystr "\D") (pystr "\A") s)
  = cnt LF s + pairs BACKSLASH 65%N s.
Proof.
  change (pystr "\A") with [BACKSLASH; 65%N].
  change (pystr "\D") with [BACKSLASH; 68%N].
  induction s as [|c t IH]; [reflexivity|].
  rewrite render_cons. split_char c.
  - rewrite render_char_backslash. cbn [app pairs cnt next_is].
    rewrite IH, next_is_render_eq by (discriminate || reflexivity).
    eqb_consts. cbn [andb]. lia.
  - rewrite render_char_CR. cbn [app pairs cnt next_is].
    rewrite IH. eqb_consts. cbn [andb]. lia.
  - rewrite render_char_LF. cbn [app pairs cnt next_is].
    rewrite IH. eqb_consts. cbn [andb]. lia.
  - rewrite render_char_other by assumption. cbn [app pairs cnt].
    rewrite IH, (eqb_other (x:=LF)), (eqb_other (x:=BACKSLASH)) by assumption.
    cbn [andb]. lia.
Qed.

(** After the first pass, the same for [D] and CR. *)
Lemma cnt_D_half_escaped s :
  cnt 68%N (render [BACKSLASH; BACKSLASH] (pystr "\D") [LF] s)
  = cnt 68%N s + cnt CR s.
Proof.
  change (pystr "\D") with [BACKSLASH; 68%N].
  induction s as [|c t IH]; [reflexivity|].
  rewrite render_cons, cnt_app, IH. split_char c.
  - rewrite render_char_backslash. cbn [cnt]. eqb_consts. lia.
  - rewrite render_char_CR. cbn [cnt]. eqb_consts. lia.
  - rewrite render_char_LF. cbn [cnt]. eqb_consts. lia.
  - rewrite render_char_other by assumption. cbn [cnt].
    rewrite (eqb_other (x:=CR)) by assumption. lia.
Qed.

Lemma pairs_D_half_escaped s :
  pairs BACKSLASH 68%N (render [BACKSLASH; BACKSLASH] (pystr "\D") [LF] s)
  = cnt CR s + pairs BACKSLASH 68%N s.
Proof.
  change (pystr "\D") with [BACKSLASH; 68%N].
  induction s as [|c t IH]; [reflexivity|].
  rewrite render_cons. split_char c.
  - rewrite render_char_backslash. cbn [app pairs cnt next_is].
    rewrite IH, next_is_render_eq by (discriminate || reflexivity).
    eqb_consts. cbn [andb]. lia.
  - rewrite render_char_CR. cbn [app pairs cnt next_is].
    rewrite IH. eqb_consts. cbn [andb]. lia.
  - rewrite render_char_LF. cbn [app pairs cnt next_is].
    rewrite IH. eqb_consts. cbn [andb]. lia.
  - rewrite render_char_other by assumption. cbn [app pairs cnt].
    rewrite IH, (eqb_other (x:=CR)), (eqb_other (x:=BACKSLASH)) by assumption.
    cbn [andb]. lia.
Qed.

(** Each backslash directly followed by [A] costs the round trip one
    [A]. *)
Lemma cnt_A_round_trip s :
  cnt 65%N (_unescape (_escape s)) + pairs BACKSLASH 65%N s = cnt 65%N s.
Proof.
  pose proof (cnt_A_escaped s) as C. pose proof (pairs_A_escaped s) as P.
  rewrite escape_render. unfold _unescape.
  change (pystr "\A") with [BACKSLASH; 65%N] in *.
  change (pystr "\D") with [BACKSLASH; 68%N] in *.
  rewrite !cnt_replace_pair_other by (discriminate || reflexivity).
  pose proof (@cnt_replace_pair_second BACKSLASH 65%N [LF]
                (render [BACKSLASH; BACKSLASH] [BACKSLASH; 68%N]
                        [BACKSLASH; 65%N] s)
                ltac:(discriminate) eq_refl) as H.
  lia.
Qed.

(** When no [A] is lost, each backslash directly followed by [D] costs
    one [D]. *)
Lemma cnt_D_round_trip s :
  clash_free 65%N s = true ->
  cnt 68%N (_unescape (_escape s)) + pairs BACKSLASH 68%N s = cnt 68%N s.
Proof.
  intros HA.
  pose proof (cnt_D_half_escaped s) as C.
  pose proof (pairs_D_half_escaped s) as P.
  rewrite escape_render. unfold _unescape.
  rewrite unescape_pass_LF by exact HA.
  change (pystr "\D") with [BACKSLASH; 68%N] in *.
  rewrite cnt_replace_pair_other by (discriminate || reflexivity).
  pose proof (@cnt_replace_pair_second BACKSLASH 68%N [CR]
                (render [BACKSLASH; BACKSLASH] [BACKSLASH; 68%N] [LF] s)
                ltac:(discriminate) eq_refl) as H.
  lia.
Qed.

(** X1.  The round trip holds for exactly the texts in which no backslash is
    directly followed by [A] or [D]. *)
Theorem unescape_escape_iff s :
  _unescape (_escape s) = s <->
  clash_free 65%N s = true /\ clash_free 68%N s = true.
Proof.
  split.
  - intros E.
    assert (HA : clash_free 65%N s = true).
    { apply clash_free_pairs. pose proof (cnt_A_round_trip s) as H.
      rewrite E in H. lia. }
    split; [exact HA|].
    apply clash_free_pairs. pose proof (cnt_D_round_trip s HA) as H.
    rewrite E in H. lia.
  - intros [HA HD]. now apply unescape_escape_clash_free.
Qed.

(** ** Status line *)

(** C2, at the response line [ERRx y]: the token before the first space is
    handed to [int], whose [ValueError] leaves [cmd]; no result tuple is
    returned. *)
Theorem cmd_ERRx_raises command b :
  sendable command b ->
  let u := scripted [wire "ERRx y"] in
  cmd command u = (Raise ValueError, mkUart (rx u) 1 [b]) /\
  (forall r, fst (cmd command u) <> Val r).
Proof.
  intros H u. rewrite (cmd_unfold u H). split.
  - vm_compute. reflexivity.
  - intros r. vm_compute. discriminate.
Qed.

Lemma cmd_ERRx_raises_witness :
  fst (cmd (pystr "CONNECT?") (scripted [wire "ERRx y"])) = Raise ValueError.
Proof.
  destruct (cmd_ERRx_raises sendable_ascii_example) as [H _].
  rewrite H. reflexivity.
Defined.

(** ** Connectivity predicates *)

(** C3 as stated fails: on [OK 1 0 foo bar] the [connected] predicate is
    not false. *)
Lemma connected_OK_1_0_not_false :
  fst (connected (scripted [wire "OK 1 0 foo bar"])) <> Val false.
Proof. vm_compute. discriminate. Qed.

(** C3, amended.  The first field of the [CONNECT?] payload decides
    [connected] and the second decides [onboarded]: on [OK 1 0 foo bar]
    [connected] is true and [onboarded] is false; on [OK 1 1 foo bar] both
    are true. *)
Theorem connect_query_predicates :
  (fst (connected (scripted [wire "OK 1 0 foo bar"])) = Val true /\
   fst (onboarded (scripted [wire "OK 1 0 foo bar"])) = Val false) /\
  (fst (connected (scripted [wire "OK 1 1 foo bar"])) = Val true /\
   fst (onboarded (scripted [wire "OK 1 1 foo bar"])) = Val true).
Proof. vm_compute. repeat split. Qed.

(** ** Continuation lines *)

(** C5.  After [OK2 first] the two declared lines are read and joined to
    the first by line feeds; the [OK] token and the count are gone from the
    payload, and exactly three lines have been consumed. *)
Theorem cmd_multiline command b :
  sendable command b ->
  let u := scripted [wire "OK2 first"; wire "second"; wire "third"] in
  cmd command u =
  (Val (true,
        pystr "first" ++ [LF] ++ pystr "second" ++ [LF] ++ pystr "third",
        None),
   mkUart (rx u) 3 [b]).
Proof.
  intros H u. rewrite (cmd_unfold u H). vm_compute. reflexivity.
Qed.

Lemma cmd_multiline_witness :
  fst (cmd (pystr "CONNECT?")
           (scripted [wire "OK2 first"; wire "second"; wire "third"])) =
  Val (true,
       pystr "first" ++ [LF] ++ pystr "second" ++ [LF] ++ pystr "third",
       None).
Proof.
  rewrite (cmd_multiline sendable_ascii_example). reflexivity.
Defined.

(** ** Stripping *)

Lemma lstrip_by_split f s : s = takewhile f s ++ lstrip_by f s.
Proof.
  induction s as [|c t IH]; simpl; [reflexivity|].
  destruct (f c); simpl; [now rewrite <- IH | reflexivity].
Qed.

Lemma takewhile_all f s : forallb f (takewhile f s) = true.
Proof.
  induction s as [|c t IH]; simpl; [reflexivity|].
  destruct (f c) eqn:E; simpl; [now rewrite E | reflexivity].
Qed.

Lemma lstrip_by_head f s c r : lstrip_by f s = c :: r -> f c = false.
Proof.
  induction s as [|a t IH]; simpl; [discriminate|].
  destruct (f a) eqn:E; [exact IH | congruence].
Qed.

Lemma rstrip_by_split f s :
  s = rstrip_by f s ++ rev (takewhile f (rev s)).
Proof.
  unfold rstrip_by. rewrite <- rev_app_distr, <- lstrip_by_split.
  now rewrite rev_involutive.
Qed.

Lemma rstrip_by_last f s c r : rev (rstrip_by f s) = c :: r -> f c = false.
Proof.
  unfold rstrip_by. rewrite rev_involutive. apply lstrip_by_head.
Qed.

Lemma forallb_rev {A} (f : A -> bool) l : forallb f (rev l) = forallb f l.
Proof.
  induction l as [|a l IH]; simpl; [reflexivity|].
  rewrite forallb_app, IH. simpl. rewrite andb_true_r. apply andb_comm.
Qed.

(** What [strip] leaves: the text between the longest run of stripped
    characters at the front and the longest such run at the back. *)
Lemma strip_by_spec f s :
  exists pre suf,
    s = pre ++ strip_by f s ++ suf /\
    forallb f pre = true /\ forallb f suf = true /\
    (forall c r, strip_by f s = c :: r -> f c = false) /\
    (forall c r, rev (strip_by f s) = c :: r -> f c = false).
Proof.
  exists (takewhile f s), (rev (takewhile f (rev (lstrip_by f s)))).
  unfold strip_by. repeat split.
  - rewrite <- rstrip_by_split. apply lstrip_by_split.
  - apply takewhile_all.
  - rewrite forallb_rev. apply takewhile_all.
  - intros c r H.
    pose proof (rstrip_by_split f (lstrip_by f s)) as E.
    rewrite H in E. simpl in E. exact (lstrip_by_head _ _ E).
  - intros c r. apply rstrip_by_last.
Qed.

(** ** Line reader *)

(** The polling loop leaves the script and the write log alone and makes
    at most [counter] calls of [readline]. *)
Lemma poll_frame counter : forall l u,
  let u' := snd (poll counter l u) in
  rx u' = rx u /\ tx u' = tx u /\ pos u <= pos u' <= pos u + counter.
Proof.
  induction counter as [|k IH]; intros l u; simpl.
  - repeat split; lia.
  - unfold bind, uart_readline.
    destruct (rx u (pos u)) as [p| |]; simpl;
      try (repeat split; lia);
      match goal with
      | |- context [if ?c then ret ?a else poll k ?b] =>
          destruct c; simpl;
          [ repeat split; lia
          | match goal with
            | |- context [poll k ?b ?v] =>
                destruct (IH b v) as (H1 & H2 & H3);
                simpl in H1, H2, H3; rewrite H1, H2; repeat split; lia
            end ]
      end.
Qed.

Lemma decode_state l u : snd (decode l u) = u.
Proof. unfold decode. now destruct (utf8_decode l). Qed.

(** [_readline] always returns or raises after at most 300 calls of
    [readline], whatever the transport does. *)
Lemma readline_frame u :
  rx (snd (_readline u)) = rx u /\
  tx (snd (_readline u)) = tx u /\
  pos u <= pos (snd (_readline u)) <= pos u + 300.
Proof.
  pose proof (poll_frame 300 [] u) as H. cbv zeta in H.
  unfold _readline, bind.
  destruct (poll 300 [] u) as [[l|e] u1]; cbn [snd] in *; [|exact H].
  pose proof (decode_state l u1) as D.
  destruct (decode l u1) as [[t|e] u2]; cbn [snd] in *; subst u2; exact H.
Qed.

(** The loop stops at the first call after which the accumulator ends
    with a line feed. *)
Lemma poll_stops counter l u p :
  rx u (pos u) = Chunk p ->
  endswith Byte.eqb [x0a] (accumulate l (Some p)) = true ->
  poll (S counter) l u
  = (Val (accumulate l (Some p)), mkUart (rx u) (S (pos u)) (tx u)).
Proof.
  intros Hp He. cbn [poll]. unfold bind, uart_readline. rewrite Hp.
  cbv zeta. rewrite He. reflexivity.
Qed.

(** When the 300 calls run out, what was accumulated is decoded, stripped
    and unescaped: no terminator is needed for a result. *)
Lemma readline_partial u l t u' :
  poll 300 [] u = (Val l, u') -> utf8_decode l = Some t ->
  _readline u = (Val (_unescape (strip_chars FILLER t)), u').
Proof.
  intros Hp Hd. unfold _readline.
  erewrite bind_val by exact Hp. unfold decode. rewrite Hd. reflexivity.
Qed.

(** Without a terminator the loop runs to its bound: exactly [counter]
    polls, and the value is everything accumulated on the way. *)
Lemma poll_timeout counter : forall l u,
  (forall i, i < counter -> rx u (pos u + i) <> Fault) ->
  (forall i, i < counter ->
     endswith Byte.eqb [x0a] (accumulated (rx u) (pos u) (S i) l) = false) ->
  poll counter l u
  = (Val (accumulated (rx u) (pos u) counter l),
     mkUart (rx u) (pos u + counter) (tx u)).
Proof.
  induction counter as [|k IH]; intros l u Hf He.
  - cbn [poll accumulated]. rewrite Nat.add_0_r. now destruct u.
  - pose proof (Hf 0 (Nat.lt_0_succ k)) as Hf0.
    pose proof (He 0 (Nat.lt_0_succ k)) as He0.
    rewrite Nat.add_0_r in Hf0. cbn [accumulated] in He0.
    cbn [poll accumulated]. unfold bind, uart_readline.
    set (u1 := mkUart (rx u) (S (pos u)) (tx u)).
    assert (R : poll k (accumulate l (received (rx u (pos u)))) u1
                = (Val (accumulated (rx u) (S (pos u)) k
                          (accumulate l (received (rx u (pos u))))),
                   mkUart (rx u) (pos u + S k) (tx u))).
    { rewrite <- Nat.add_succ_comm. apply (IH _ u1).
      - intros i Hi. cbn [rx pos u1]. rewrite Nat.add_succ_comm.
        apply Hf. lia.
      - intros i Hi. cbn [rx pos u1].
        apply (He (S i)). lia. }
    destruct (rx u (pos u)) as [p| |]; [| |congruence];
      cbn [received] in *; cbv zeta; rewrite He0; exact R.
Qed.

(** X2.  When no terminator arrives within the bound and the accumulated
    octets are valid UTF-8, [_readline] returns them, stripped and
    unescaped, after exactly 300 polls. *)
Theorem readline_timeout_returns_partial u t :
  (forall i, i < 300 -> rx u (pos u + i) <> Fault) ->
  (forall i, i < 300 ->
     endswith Byte.eqb [x0a] (accumulated (rx u) (pos u) (S i) []) = false) ->
  utf8_decode (accumulated (rx u) (pos u) 300 []) = Some t ->
  _readline u
  = (Val (_unescape (strip_chars FILLER t)),
     mkUart (rx u) (pos u + 300) (tx u)).
Proof.
  intros Hf He Hd. eapply readline_partial; [|exact Hd].
  now apply poll_timeout.
Qed.

Lemma accumulated_silent rx n : forall start l,
  (forall i, i < n -> received (rx (start + i)) = None) ->
  accumulated rx start n l = l.
Proof.
  induction n as [|n IH]; intros start l H; [reflexivity|].
  cbn [accumulated].
  pose proof (H 0 (Nat.lt_0_succ n)) as H0. rewrite Nat.add_0_r in H0.
  rewrite H0. cbn [accumulate]. apply IH.
  intros i Hi. rewrite Nat.add_succ_comm. apply H. lia.
Qed.

(** A transport that delivers [OK] without a terminator and then nothing:
    the partial line comes back after 300 polls. *)
Lemma readline_timeout_returns_partial_witness :
  let u := scripted [Chunk (pybytes "OK")] in
  _readline u = (Val (pystr "OK"), mkUart (rx u) 300 []).
Proof.
  intros u.
  assert (A : forall i,
             accumulated (rx u) (pos u) (S i) [] = pybytes "OK").
  { intros i. cbn [accumulated]. apply accumulated_silent.
    intros j _. cbn. now destruct j. }
  apply (@readline_timeout_returns_partial u (pystr "OK")).
  - intros i _. cbn. destruct i as [|[|i]]; discriminate.
  - intros i _. rewrite A. reflexivity.
  - rewrite A. reflexivity.
Defined.

(** C8, at a transport that delivers the single octet [0xFF] and then
    nothing.  The loop gives up after exactly 300 calls, and the partial
    accumulation is then handed to the UTF-8 decoder, which rejects it:
    [_readline] raises instead of returning the partial line. *)
Theorem readline_timeout_undecodable_raises :
  let u := scripted [Chunk [xff]] in
  poll 300 [] u = (Val [xff], mkUart (rx u) 300 []) /\
  _readline u = (Raise UnicodeDecodeError, mkUart (rx u) 300 []) /\
  (forall l, fst (_readline u) <> Val l).
Proof.
  vm_compute. repeat split. intros l. discriminate.
Qed.

(** C7 as stated fails: a NUL at the start of the line is removed as
    well, where stripping the trailing end only would have kept it. *)
Lemma readline_strips_leading_filler :
  let u := scripted [Chunk (x00 :: pybytes "OK" ++ [x0d; x0a])] in
  utf8_decode (x00 :: pybytes "OK" ++ [x0d; x0a])
    = Some (0%N :: pystr "OK" ++ [CR; LF]) /\
  fst (_readline u) = Val (pystr "OK") /\
  fst (_readline u)
    <> Val (_unescape (rstrip_by (mem FILLER) (0%N :: pystr "OK" ++ [CR; LF]))).
Proof.
  vm_compute. repeat split. discriminate.
Qed.

(** C7, amended.  For an accumulated line that decodes to the text [t],
    the line reader removes the characters CR, LF, NUL and U+00FA to
    U+00FF from both ends of [t]: [t] is a run [pre] of such characters,
    a [body] that neither starts nor ends with one, and a run [suf] of such
    characters, and the result is the unescaped [body]. *)
Theorem readline_strips_both_ends u l t u' :
  poll 300 [] u = (Val l, u') -> utf8_decode l = Some t ->
  exists pre body suf,
    t = pre ++ body ++ suf /\
    forallb (mem FILLER) pre = true /\
    forallb (mem FILLER) suf = true /\
    (forall c r, body = c :: r -> mem FILLER c = false) /\
    (forall c r, rev body = c :: r -> mem FILLER c = false) /\
    _readline u = (Val (_unescape body), u').
Proof.
  intros Hp Hd.
  destruct (strip_by_spec (mem FILLER) t) as (pre & suf & H1 & H2 & H3 & H4 & H5).
  exists pre, (strip_by (mem FILLER) t), suf.
  repeat split; try assumption.
  eapply readline_partial; eassumption.
Qed.

Lemma readline_strips_both_ends_witness :
  let u := scripted [Chunk (x00 :: pybytes "OK" ++ [x0d; x0a])] in
  exists pre body suf,
    0%N :: pystr "OK" ++ [CR; LF] = pre ++ body ++ suf /\
    forallb (mem FILLER) pre = true /\
    forallb (mem FILLER) suf = true /\
    (forall c r, body = c :: r -> mem FILLER c = false) /\
    (forall c r, rev body = c :: r -> mem FILLER c = false) /\
    _readline u = (Val (_unescape body), mkUart (rx u) 1 []).
Proof.
  intros u.
  apply (@readline_strips_both_ends
           u (x00 :: pybytes "OK" ++ [x0d; x0a])
           (0%N :: pystr "OK" ++ [CR; LF]) (mkUart (rx u) 1 [])).
  - vm_compute. reflexivity.
  - vm_compute. reflexivity.
Defined.

(** ** Response parser *)

(** Parsing the status line does not touch the UART. *)
Lemma parse_status_state l u : snd (parse_status l u) = u.
Proof.
  unfold parse_status.
  destruct (startswith (pystr "OK") l).
  - destruct (find [SPACE] (slice_from 2 l) >? 0)%Z; [|reflexivity].
    unfold bind, lift.
    now destruct (py_int (slice 0 (find [SPACE] (slice_from 2 l))
                                (slice_from 2 l))).
  - destruct (startswith (pystr "ERR") l); [|reflexivity].
    destruct (find [SPACE] (slice_from 3 l) >? 0)%Z; [|reflexivity].
    unfold bind, lift.
    now destruct (py_int (slice 0 (find [SPACE] (slice_from 3 l))
                                (slice_from 3 l))).
Qed.

(** The outcomes of the status line, branch by branch. *)
Lemma parse_status_cases l u st u' :
  parse_status l u = (Val st, u') ->
  match st with
  | Return r =>
      startswith (pystr "OK") l = false /\
      (r = (false, l, Some 2%Z) \/ r = (false, slice_from 3 l, Some 2%Z))
  | Continue success additional_lines _ error_code =>
      (success = true /\ error_code = None /\
       startswith (pystr "OK") l = true) \/
      (success = false /\ additional_lines = 0%Z /\
       startswith (pystr "OK") l = false /\
       startswith (pystr "ERR") l = true /\
       exists code, err_code l = Val code /\ error_code = Some code)
  end.
Proof.
  unfold parse_status, err_code.
  destruct (startswith (pystr "OK") l) eqn:Hok.
  - destruct (find [SPACE] (slice_from 2 l) >? 0)%Z.
    + unfold bind, lift.
      destruct (py_int _); [|discriminate].
      intros H; inversion H; subst. left. auto.
    + intros H; inversion H; subst. left. auto.
  - destruct (startswith (pystr "ERR") l) eqn:Herr.
    + destruct (find [SPACE] (slice_from 3 l) >? 0)%Z.
      * unfold bind, lift.
        destruct (py_int _) as [code|] eqn:Hc; [|discriminate].
        intros H; inversion H; subst. right.
        repeat split; trivial. exists code. auto.
      * intros H; inversion H; subst. auto.
    + intros H; inversion H; subst. auto.
Qed.

(** A line with neither prefix ends [cmd] at once, with the line itself
    as payload. *)
Lemma parse_status_unexpected l u :
  startswith (pystr "OK") l = false ->
  startswith (pystr "ERR") l = false ->
  parse_status l u = (Val (Return (false, l, Some 2%Z)), u).
Proof.
  intros H1 H2. unfold parse_status. now rewrite H1, H2.
Qed.

Lemma cmd_inv command u r u' :
  cmd command u = (Val r, u') ->
  exists b, sendable command b /\ read_response (written b u) = (Val r, u').
Proof.
  intros H.
  destruct command as [|c t]; [discriminate|].
  destruct (utf8_encode (frame (_escape (c :: t)))) as [b|] eqn:E.
  - assert (S : sendable (c :: t) b) by (split; [discriminate | exact E]).
    exists b. split; [exact S|]. now rewrite <- (cmd_unfold u S).
  - unfold cmd, encode in H. rewrite E in H.
    cbv [bind ret raise reset_input_buffer] in H. discriminate.
Qed.

Lemma read_response_eq u :
  read_response u
  = bind _readline
      (fun l =>
         st <- parse_status l ;;
         match st with
         | Return r => ret r
         | Continue success additional_lines l error_code =>
             l <- read_additional (Z.to_nat additional_lines) l ;;
             ret (success, strip l, error_code)
         end) u.
Proof. reflexivity. Qed.

(** How a result of [cmd] came about: the status line, its parse, and
    for a [Continue] the continuation lines. *)
Lemma read_response_inv u r u' :
  read_response u = (Val r, u') ->
  exists l u1 st,
    _readline u = (Val l, u1) /\ parse_status l u1 = (Val st, u1) /\
    match st with
    | Return r' => r = r' /\ u' = u1
    | Continue success additional_lines l' error_code =>
        exists l2,
          read_additional (Z.to_nat additional_lines) l' u1 = (Val l2, u') /\
          r = (success, strip l2, error_code)
    end.
Proof.
  intros H. rewrite read_response_eq in H.
  apply bind_inv in H. destruct H as (l & u1 & Hl & H).
  apply bind_inv in H. destruct H as (st & u2 & Hst & H).
  pose proof (parse_status_state l u1) as Hu. rewrite Hst in Hu.
  cbn [snd] in Hu. subst u2.
  exists l, u1, st. split; [exact Hl|]. split; [exact Hst|].
  destruct st as [r' | s n l' e].
  - inversion H. auto.
  - apply bind_inv in H. destruct H as (l2 & u3 & Ha & H).
    inversion H; subst. now exists l2.
Qed.

(** C4.  In every tuple [cmd] returns, the error code is present exactly
    when [success] is false: a success carries no code, an error carries
    the code [int] read from the [ERR] line or the reserved code 2.  A
    status line with neither prefix gives failure, the reserved code, and
    the line itself as payload, without further reads. *)
Theorem cmd_error_code_invariant (command : str) (u : uart) :
  (forall success payload error_code u',
      cmd command u = (Val (success, payload, error_code), u') ->
      (error_code <> None <-> success = false) /\
      (success = true -> error_code = None) /\
      (success = false ->
       error_code = Some 2%Z \/
       exists l code,
         status_line command u l /\ startswith (pystr "ERR") l = true /\
         err_code l = Val code /\ error_code = Some code)) /\
  (forall b l u1,
      sendable command b ->
      _readline (written b u) = (Val l, u1) ->
      startswith (pystr "OK") l = false ->
      startswith (pystr "ERR") l = false ->
      cmd command u = (Val (false, l, Some 2%Z), u1)).
Proof.
  split.
  - intros success payload error_code u' H.
    apply cmd_inv in H. destruct H as (b & Hs & H).
    apply read_response_inv in H.
    destruct H as (l & u1 & st & Hl & Hst & H).
    pose proof (parse_status_cases _ _ Hst) as Hc.
    destruct st as [r | s n l' e].
    + destruct H as [<- _].
      destruct Hc as [_ [Hr | Hr]]; inversion Hr; subst;
        (split; [split; [reflexivity | discriminate]
                | split; [discriminate | left; reflexivity]]).
    + destruct H as (l2 & _ & H). inversion H; subst.
      destruct Hc as [(-> & -> & _) | (-> & _ & _ & Herr & code & Hcode & ->)].
      * split; [split; [congruence | discriminate]
               | split; [reflexivity | discriminate]].
      * split; [split; [reflexivity | discriminate]
               | split; [discriminate|]].
        intros _. right. exists l, code.
        repeat split; trivial. now exists b, u1.
  - intros b l u1 Hs Hl Hok Herr.
    rewrite (cmd_unfold u Hs), read_response_eq.
    erewrite bind_val by exact Hl.
    erewrite bind_val by (apply parse_status_unexpected; assumption).
    reflexivity.
Qed.

Lemma cmd_error_code_invariant_witness :
  ((Some 5%Z <> None <-> false = false) /\
   (false = true -> Some 5%Z = @None Z)) /\
  cmd (pystr "CONNECT?") (scripted [wire "+CME busy"])
  = (Val (false, pystr "+CME busy", Some 2%Z),
     mkUart (script [wire "+CME busy"]) 1
            [pybytes "AT+CONNECT?" ++ [x0d; x0a]]).
Proof.
  split.
  - destruct (cmd_error_code_invariant (pystr "CONNECT?")
                (scripted [wire "ERR5 bad"])) as [H _].
    destruct (H false (pystr "bad") (Some 5%Z)
                (mkUart (script [wire "ERR5 bad"]) 1
                        [pybytes "AT+CONNECT?" ++ [x0d; x0a]]))
      as (H1 & H2 & _).
    + vm_compute. reflexivity.
    + split; assumption.
  - destruct (cmd_error_code_invariant (pystr "CONNECT?")
                (scripted [wire "+CME busy"])) as [_ H].
    apply (H (pybytes "AT+CONNECT?" ++ [x0d; x0a])).
    + exact sendable_ascii_example.
    + vm_compute. reflexivity.
    + reflexivity.
    + reflexivity.
Defined.

(** ** Bring-up *)

Lemma attempt_state u : snd (self_test_attempt u) = snd (self_test_body u).
Proof.
  unfold self_test_attempt, catch.
  now destruct (self_test_body u) as [[b|e] u'].
Qed.

(** A pass returns [true] only when its body reached [return True]; a body
    that raised or fell through counts as [false]. *)
Lemma attempt_value u :
  fst (self_test_attempt u)
  = Val (match fst (self_test_body u) with Val true => true | _ => false end).
Proof.
  unfold self_test_attempt, catch.
  now destruct (self_test_body u) as [[[|]|e] u'].
Qed.

Lemma attempt_eq u :
  self_test_attempt u
  = (Val (match fst (self_test_body u) with Val true => true | _ => false end),
     snd (self_test_body u)).
Proof.
  rewrite <- attempt_value, <- attempt_state.
  now destruct (self_test_attempt u).
Qed.

(** Each pass writes the probe exactly once. *)
Lemma body_tx u : tx (snd (self_test_body u)) = tx u ++ [AT].
Proof.
  unfold self_test_body. unfold bind at 1. cbn [uart_write].
  set (u1 := mkUart (rx u) (pos u) (tx u ++ [AT])).
  destruct (readline_frame u1) as (_ & Ht & _).
  unfold bind. destruct (_readline u1) as [[r|e] u2]; exact Ht.
Qed.

Lemma after_attempts_tx k : forall u,
  tx (after_attempts u k) = tx u ++ repeat AT k.
Proof.
  induction k as [|k IH]; intros u; cbn [after_attempts repeat].
  - now rewrite app_nil_r.
  - rewrite IH, body_tx, <- app_assoc. reflexivity.
Qed.

Lemma self_test_loop_step n u :
  self_test_loop (S n) u
  = if match fst (self_test_body u) with Val true => true | _ => false end
    then (Val true, snd (self_test_body u))
    else self_test_loop n (snd (self_test_body u)).
Proof.
  cbn [self_test_loop]. unfold bind. rewrite attempt_eq.
  now destruct (fst (self_test_body u)) as [[|]|e].
Qed.

Lemma self_test_loop_fail n : forall u,
  (forall k, k < n -> fst (self_test_body (after_attempts u k)) <> Val true) ->
  self_test_loop n u = (Val false, after_attempts u n).
Proof.
  induction n as [|n IH]; intros u H; [reflexivity|].
  rewrite self_test_loop_step. cbn [after_attempts].
  pose proof (H 0 (Nat.lt_0_succ n)) as H0. cbn [after_attempts] in H0.
  destruct (fst (self_test_body u)) as [[|]|e]; try congruence;
    apply IH; intros k Hk; apply (H (S k)); lia.
Qed.

Lemma self_test_loop_success n m : forall u,
  (forall k, k < m -> fst (self_test_body (after_attempts u k)) <> Val true) ->
  fst (self_test_body (after_attempts u m)) = Val true ->
  m < n ->
  self_test_loop n u = (Val true, after_attempts u (S m)).
Proof.
  revert m.
  induction n as [|n IH]; intros m u H Hm Hlt; [lia|].
  rewrite self_test_loop_step.
  destruct m as [|m].
  - cbn [after_attempts] in *. rewrite Hm. reflexivity.
  - pose proof (H 0 (Nat.lt_0_succ m)) as H0. cbn [after_attempts] in H0.
    assert (R : self_test_loop n (snd (self_test_body u))
                = (Val true, after_attempts u (S (S m)))).
    { apply (IH m); [|exact Hm|lia].
      intros k Hk. apply (H (S k)). lia. }
    destruct (fst (self_test_body u)) as [[|]|e]; try congruence; exact R.
Qed.

(** The self-test never raises. *)
Lemma self_test_loop_total n : forall u,
  exists ok u', self_test_loop n u = (Val ok, u').
Proof.
  induction n as [|n IH]; intros u.
  - now exists false, u.
  - rewrite self_test_loop_step.
    destruct (fst (self_test_body u)) as [[|]|e];
      try apply IH. now eexists _, _.
Qed.

Lemma init_of_self_test u ok u' :
  self_test u = (Val ok, u') -> ExpressLink_init u = (Val ok, u').
Proof.
  intros H. unfold ExpressLink_init.
  erewrite bind_val by exact H. now destruct ok.
Qed.

(** C6.  The constructor always ends with a boolean [ready] flag, never an
    exception.  When no pass of the self-test reaches the success token,
    whether its read returned something else or raised, the probe is sent
    exactly five times and [ready] is false.  When the first two passes
    fail and the third reads the success token, [ready] is true after
    exactly three probes: no fourth pass is made. *)
Theorem self_test_retries (u : uart) :
  (exists ready u', ExpressLink_init u = (Val ready, u')) /\
  ((forall k, k < 5 ->
      fst (self_test_body (after_attempts u k)) <> Val true) ->
   ExpressLink_init u = (Val false, after_attempts u 5) /\
   tx (after_attempts u 5) = tx u ++ repeat AT 5) /\
  ((forall k, k < 2 ->
      fst (self_test_body (after_attempts u k)) <> Val true) ->
   fst (self_test_body (after_attempts u 2)) = Val true ->
   ExpressLink_init u = (Val true, after_attempts u 3) /\
   tx (after_attempts u 3) = tx u ++ repeat AT 3).
Proof.
  repeat apply conj.
  - destruct (self_test_loop_total 5 u) as (ok & u' & H).
    exists ok, u'. now apply init_of_self_test.
  - intros H. split; [|apply after_attempts_tx].
    apply init_of_self_test. now apply self_test_loop_fail.
  - intros H H2. split; [|apply after_attempts_tx].
    apply init_of_self_test. unfold self_test.
    apply (@self_test_loop_success 5 2); auto.
Qed.

(** A transport that answers garbage, raises, then stays silent: five
    probes, not ready.  One that fails twice and then answers [OK]: three
    probes, ready, and the fourth scripted line is never read. *)
Lemma self_test_retries_witness :
  (let u := scripted [wire "x"; Fault] in
   ExpressLink_init u = (Val false, after_attempts u 5) /\
   tx (after_attempts u 5) = repeat AT 5) /\
  (let u := scripted [wire "x"; Fault; wire "OK"; wire "OK"] in
   ExpressLink_init u = (Val true, after_attempts u 3) /\
   tx (after_attempts u 3) = repeat AT 3 /\
   pos (after_attempts u 3) = 3).
Proof.
  split.
  - intros u.
    destruct (self_test_retries u) as (_ & H & _).
    apply H. intros k Hk.
    do 5 (destruct k as [|k]; [vm_compute; discriminate|]). lia.
  - intros u.
    destruct (self_test_retries u) as (_ & _ & H).
    assert (F : forall k, k < 2 ->
                fst (self_test_body (after_attempts u k)) <> Val true).
    { intros k Hk.
      do 2 (destruct k as [|k]; [vm_compute; discriminate|]). lia. }
    assert (T : fst (self_test_body (after_attempts u 2)) = Val true)
      by (vm_compute; reflexivity).
    destruct (H F T) as [H1 H2].
    split; [exact H1 | split; [exact H2 | vm_compute; reflexivity]].
Defined.

(** ** Certificate getters *)

Lemma extract_value_success query u line e u' :
  cmd (pystr "CONF? " ++ query) u = (Val (true, line, e), u') ->
  Config._extract_value query u = (Val line, u').
Proof.
  intros H. unfold Config._extract_value.
  erewrite bind_val by exact H. reflexivity.
Qed.

Lemma pem_getter_intro query :
  pem_getter_of
    (v <- Config._extract_value query ;;
     ret (strip (lstrip_chars (pystr "pem") v)))
    query.
Proof.
  intros u line e u' H.
  erewrite bind_val by (eapply extract_value_success; exact H).
  reflexivity.
Qed.

(** C9.  Each of the four certificate getters passes the successful
    payload through [lstrip("pem")], which removes the longest leading run
    of the letters p, e and m, whatever their order and number, and not a
    single ["pem"] marker: the payload is such a run followed by a rest that
    does not start with one of the three letters.  On the reply
    [OK pemmeow] the body [meow] loses its first two letters. *)
Theorem pem_getters_strip_letter_set :
  (pem_getter_of Config.Certificate (pystr "Certificate pem") /\
   pem_getter_of Config.RootCA (pystr "RootCA pem") /\
   pem_getter_of Config.HOTAcertificate (pystr "HOTAcertificate pem") /\
   pem_getter_of Config.OTAcertificate (pystr "OTAcertificate pem")) /\
  (forall line,
      exists run,
        line = run ++ lstrip_chars (pystr "pem") line /\
        forallb (mem (pystr "pem")) run = true /\
        (forall c r, lstrip_chars (pystr "pem") line = c :: r ->
                     mem (pystr "pem") c = false)) /\
  (exists body,
      startswith (pystr "m") body = true /\
      fst (Config.Certificate (scripted [wire "OK pemmeow"]))
      = Val (pystr "ow") /\
      fst (cmd (pystr "CONF? Certificate pem") (scripted [wire "OK pemmeow"]))
      = Val (true, pystr "pem" ++ body, None) /\
      pystr "ow" <> body).
Proof.
  split; [|split].
  - repeat apply conj; apply pem_getter_intro.
  - intros line. exists (takewhile (mem (pystr "pem")) line).
    unfold lstrip_chars. split; [apply lstrip_by_split|].
    split; [apply takewhile_all|]. intros c r. apply lstrip_by_head.
  - exists (pystr "meow").
    split; [reflexivity|].
    split; [vm_compute; reflexivity|].
    split; [vm_compute; reflexivity | discriminate].
Qed.

Lemma pem_getters_strip_letter_set_witness :
  let u := scripted [wire "OK pemmeow"] in
  Config.RootCA u
  = (Val (pem_value (pystr "pemmeow")),
     mkUart (rx u) 1 [pybytes "AT+CONF? RootCA pem" ++ [x0d; x0a]]) /\
  pem_value (pystr "pemmeow") = pystr "ow".
Proof.
  intros u. split; [|reflexivity].
  destruct pem_getters_strip_letter_set as [(_ & H & _) _].
  apply (H u (pystr "pemmeow") None).
  vm_compute. reflexivity.
Defined.

(** ** Event query *)

Lemma get_event_polls sig u r u' :
  sig <> Some false ->
  cmd (pystr "EVENT?") u = (Val r, u') ->
  get_event sig u
  = (let '(success, line, _) := r in
     if (success && str_eqb line []) || negb success then ret no_event
     else
       match match_event line with
       | None => raise AttributeError
       | Some (event_id, parameter, mnemonic, detail) =>
           i <- lift (py_int event_id) ;;
           p <- lift (py_int parameter) ;;
           ret (Some i, Some p, Some mnemonic, detail)
       end) u'.
Proof.
  intros Hs H.
  destruct sig as [[|]|]; try congruence;
    unfold get_event; erewrite bind_val by exact H;
    destruct r as [[success line] e]; reflexivity.
Qed.

(** C10.  When the event pin does not rule the query out, an unsuccessful
    answer to [EVENT?] makes [get_event] return the quadruple of [None]s,
    which is also what a successful empty payload gives: the payload and
    the error code of the failure are dropped. *)
Theorem get_event_error_looks_empty sig u :
  sig <> Some false ->
  (forall payload code u',
      cmd (pystr "EVENT?") u = (Val (false, payload, code), u') ->
      get_event sig u = (Val no_event, u')) /\
  (forall code u',
      cmd (pystr "EVENT?") u = (Val (true, [], code), u') ->
      get_event sig u = (Val no_event, u')).
Proof.
  intros Hs. split.
  - intros payload code u' H.
    rewrite (@get_event_polls sig u _ u' Hs H). reflexivity.
  - intros code u' H.
    rewrite (@get_event_polls sig u _ u' Hs H). reflexivity.
Qed.

(** A well-formed [ERR] line and an empty [OK] give the same answer. *)
Lemma get_event_error_looks_empty_witness :
  fst (get_event None (scripted [wire "ERR5 bad"])) = Val no_event /\
  fst (get_event None (scripted [wire "OK"])) = Val no_event.
Proof.
  assert (N : @None bool <> Some false) by discriminate.
  split.
  - destruct (get_event_error_looks_empty (scripted [wire "ERR5 bad"]) N)
      as [H _].
    erewrite (H (pystr "bad") (Some 5%Z)); [reflexivity|].
    vm_compute. reflexivity.
  - destruct (get_event_error_looks_empty (scripted [wire "OK"]) N)
      as [_ H].
    erewrite (H None); [reflexivity|].
    vm_compute. reflexivity.
Defined.

(** * Properties of the rest of the library *)

(** ** Decimal text *)












(** ** More on the codec *)

(** Escaped text counts no CR and no LF. *)
Lemma cnt_escape_line_breaks s :
  cnt CR (_escape s) = 0 /\ cnt LF (_escape s) = 0.
Proof.
  rewrite escape_render.
  change (pystr "\A") with [BACKSLASH; 65%N].
  change (pystr "\D") with [BACKSLASH; 68%N].
  induction s as [|c t [IH1 IH2]]; [now split|].
  rewrite render_cons, !cnt_app, IH1, IH2. split_char c.
  - rewrite render_char_backslash. now split.
  - rewrite render_char_CR. now split.
  - rewrite render_char_LF. now split.
  - rewrite render_char_other by assumption. cbn [cnt].
    rewrite (eqb_other (x:=CR)), (eqb_other (x:=LF)) by assumption.
    now split.
Qed.

Lemma cnt_zero_not_in x w : cnt x w = 0 -> ~ In x w.
Proof.
  induction w as [|c t IH]; cbn [cnt In]; [tauto|].
  intros E [-> | Hin].
  - rewrite N.eqb_refl in E. discriminate.
  - apply IH; [lia | exact Hin].
Qed.

(** X3.  Escaped text holds no line break: no character of [_escape s] is CR
    or LF, so an escaped command cannot end the line it is framed in. *)
Theorem escape_no_line_break s c :
  In c (_escape s) -> c <> CR /\ c <> LF.
Proof.
  intros Hin. destruct (cnt_escape_line_breaks s) as [C L].
  split; intros ->.
  - exact (cnt_zero_not_in _ _ C Hin).
  - exact (cnt_zero_not_in _ _ L Hin).
Qed.

Lemma escape_no_line_break_witness :
  In BACKSLASH (_escape (pystr "a" ++ [LF] ++ pystr "b")) /\
  BACKSLASH <> CR /\ BACKSLASH <> LF.
Proof.
  assert (Hin : In BACKSLASH (_escape (pystr "a" ++ [LF] ++ pystr "b")))
    by (vm_compute; tauto).
  split; [exact Hin | exact (escape_no_line_break _ _ Hin)].
Defined.

(** X4.  Escaping loses nothing: two texts with the same escaped form are the
    same text. *)
Theorem escape_injective s1 : forall s2,
  _escape s1 = _escape s2 -> s1 = s2.
Proof.
  intros s2. rewrite !escape_render.
  change (pystr "\A") with [BACKSLASH; 65%N].
  change (pystr "\D") with [BACKSLASH; 68%N].
  revert s2. induction s1 as [|c1 t1 IH]; intros [|c2 t2].
  - reflexivity.
  - rewrite render_cons. split_char c2;
      rewrite ?render_char_backslash, ?render_char_CR, ?render_char_LF,
        ?render_char_other by assumption; discriminate.
  - rewrite render_cons. split_char c1;
      rewrite ?render_char_backslash, ?render_char_CR, ?render_char_LF,
        ?render_char_other by assumption; discriminate.
  - rewrite !render_cons.
    split_char c1; split_char c2;
      rewrite ?render_char_backslash, ?render_char_CR, ?render_char_LF,
        ?render_char_other by assumption;
      unfold BACKSLASH, CR, LF in *; cbn [app];
      intros H; inversion H; subst; try congruence;
      f_equal; apply IH; assumption.
Qed.

Lemma escape_injective_witness :
  _escape ([CR] ++ pystr "a\b") = _escape ([CR] ++ pystr "a\b") /\
  [CR] ++ pystr "a\b" = [CR] ++ pystr "a\b".
Proof.
  split; [reflexivity | apply escape_injective; reflexivity].
Defined.

(** ** What a command costs *)

Lemma read_response_finish u :
  read_response u = bind _readline (fun l => bind (parse_status l) finish) u.
Proof. reflexivity. Qed.


Lemma reads_at_most_ret {A} (a : A) : reads_at_most 0 (ret a).
Proof. intros u. cbn. repeat split; lia. Qed.

Lemma reads_at_most_raise {A} e : reads_at_most 0 (@raise A e).
Proof. intros u. cbn. repeat split; lia. Qed.

Lemma reads_at_most_weaken {A} n k (m : M A) :
  n <= k -> reads_at_most n m -> reads_at_most k m.
Proof.
  intros Hnk H u. destruct (H u) as (H1 & H2 & H3). repeat split; try assumption; lia.
Qed.

(** Costs add up along a sequence. *)
Lemma reads_at_most_bind {A B} n k (m : M A) (f : A -> M B) :
  reads_at_most n m -> (forall a, reads_at_most k (f a)) ->
  reads_at_most (n + k) (bind m f).
Proof.
  intros Hm Hf u. unfold bind.
  destruct (Hm u) as (H1 & H2 & H3).
  destruct (m u) as [[a|e] u1]; cbn [snd] in *.
  - destruct (Hf a u1) as (G1 & G2 & G3).
    rewrite G1, G2, H1, H2. repeat split; lia.
  - repeat split; try assumption; lia.
Qed.

Lemma reads_at_most_readline : reads_at_most 300 _readline.
Proof. exact readline_frame. Qed.

Lemma reads_at_most_parse_status l : reads_at_most 0 (parse_status l).
Proof.
  intros u. rewrite parse_status_state. repeat split; lia.
Qed.

Lemma reads_at_most_read_additional n : forall l,
  reads_at_most (300 * n) (read_additional n l).
Proof.
  induction n as [|n IH]; intros l.
  - apply reads_at_most_ret.
  - cbn [read_additional].
    replace (300 * S n) with (300 + 300 * n) by lia.
    apply reads_at_most_bind; [exact reads_at_most_readline|].
    intros [|c al].
    + apply reads_at_most_weaken with (n := 0); [lia | apply reads_at_most_ret].
    + apply IH.
Qed.

Lemma parse_status_declares l u st u' :
  parse_status l u = (Val st, u') ->
  match st with
  | Return _ => True
  | Continue _ additional_lines _ _ =>
      Z.to_nat additional_lines = declared_lines l
  end.
Proof.
  unfold parse_status, declared_lines.
  destruct (startswith (pystr "OK") l).
  - destruct (find [SPACE] (slice_from 2 l) >? 0)%Z.
    + unfold bind, lift. destruct (py_int _); [|discriminate].
      intros H; inversion H; subst. reflexivity.
    + intros H; inversion H; subst. reflexivity.
  - destruct (startswith (pystr "ERR") l).
    + destruct (find [SPACE] (slice_from 3 l) >? 0)%Z.
      * unfold bind, lift. destruct (py_int _); [|discriminate].
        intros H; inversion H; subst. reflexivity.
      * intros H; inversion H; subst. exact I.
    + intros H; inversion H; subst. exact I.
Qed.

(** After the status line [l], the rest of [cmd] reads at most
    [300 * declared_lines l] more times. *)
Lemma after_status_line l u :
  rx (snd (bind (parse_status l) finish u)) = rx u /\
  tx (snd (bind (parse_status l) finish u)) = tx u /\
  pos u <= pos (snd (bind (parse_status l) finish u))
        <= pos u + 300 * declared_lines l.
Proof.
  pose proof (parse_status_state l u) as S.
  destruct (parse_status l u) as [[st|e] u1] eqn:E; cbn [snd] in S; subst u1.
  - erewrite bind_val by exact E.
    pose proof (parse_status_declares _ _ E) as D.
    destruct st as [r | s n l' ec]; cbn [finish].
    + cbn. repeat split; lia.
    + rewrite <- D.
      assert (R : reads_at_most (300 * Z.to_nat n + 0)
                    (l0 <- read_additional (Z.to_nat n) l' ;;
                     ret (s, strip l0, ec))).
      { apply reads_at_most_bind; [apply reads_at_most_read_additional|].
        intros a. apply reads_at_most_ret. }
      destruct (R u) as (R1 & R2 & R3). repeat split; try assumption; lia.
  - erewrite bind_raise by exact E. cbn [snd]. repeat split; lia.
Qed.

(** X5.  What [cmd] does to the UART.  A command that is empty or cannot be
    encoded raises before anything is written or read.  Any other command
    is written exactly once, whatever the module answers and whether or not
    [cmd] then raises; the first line costs at most 300 calls of
    [readline] and each declared continuation line at most 300 more. *)
Theorem cmd_effects command u :
  ((forall b, ~ sendable command b) ->
   exists e, cmd command u = (Raise e, u)) /\
  (forall b, sendable command b ->
     rx (snd (cmd command u)) = rx u /\
     tx (snd (cmd command u)) = tx u ++ [b] /\
     pos u <= pos (snd (cmd command u)) /\
     match fst (_readline (written b u)) with
     | Val l => pos (snd (cmd command u))
                <= pos u + 300 * (1 + declared_lines l)
     | Raise _ => pos (snd (cmd command u)) <= pos u + 300
     end).
Proof.
  split.
  - intros H. destruct command as [|c t]; [now exists AssertionError|].
    destruct (utf8_encode (frame (_escape (c :: t)))) as [b|] eqn:E.
    + exfalso. apply (H b). split; [discriminate | exact E].
    + exists UnicodeEncodeError. unfold cmd, encode. rewrite E. reflexivity.
  - intros b Hs.
    rewrite (cmd_unfold u Hs), read_response_finish.
    set (u0 := written b u).
    assert (W : rx u0 = rx u /\ tx u0 = tx u ++ [b] /\ pos u0 = pos u)
      by (repeat split).
    destruct W as (W1 & W2 & W3).
    destruct (readline_frame u0) as (F1 & F2 & F3).
    destruct (_readline u0) as [[l|e] u1] eqn:R; cbn [fst snd] in *.
    + erewrite bind_val by exact R.
      destruct (after_status_line l u1) as (A1 & A2 & A3).
      rewrite A1, A2, F1, F2, W1, W2. repeat split; lia.
    + erewrite bind_raise by exact R. cbn [snd].
      rewrite F1, F2, W1, W2. repeat split; lia.
Qed.

Lemma cmd_effects_witness :
  let u := scripted [wire "OK1 a"; wire "b"] in
  let u' := snd (cmd (pystr "CONNECT?") u) in
  tx u' = [pybytes "AT+CONNECT?" ++ [x0d; x0a]] /\ pos u' <= 600.
Proof.
  intros u u'.
  destruct (cmd_effects (pystr "CONNECT?") u) as [_ H].
  destruct (H _ sendable_ascii_example) as (_ & H2 & _ & H4).
  split; [exact H2|].
  replace (fst (_readline (written (pybytes "AT+CONNECT?" ++ [x0d; x0a]) u)))
    with (@Val (list N) (pystr "OK1 a")) in H4 by (vm_compute; reflexivity).
  exact H4.
Defined.

(** ** Fields of the connectivity answer *)

Lemma split_head sep s :
  exists r, split sep s
            = takewhile (fun c => negb (c =? sep)%N) s :: r.
Proof.
  induction s as [|c t [r IH]]; [now exists []|].
  cbn [split takewhile]. destruct (c =? sep)%N; cbn [negb].
  - now eexists.
  - rewrite IH. now eexists.
Qed.

Lemma split_length sep s : List.length (split sep s) = S (cnt sep s).
Proof.
  induction s as [|c t IH]; [reflexivity|].
  cbn [split cnt]. destruct (c =? sep)%N.
  - cbn [List.length]. now rewrite IH.
  - destruct (split sep t) as [|h r]; cbn [List.length] in *; lia.
Qed.

(** X6.  [connected] looks only at the text before the first space of the
    payload: it never raises on a result of [cmd], and an error response
    whose message starts with the field [1] reads as connected. *)
Theorem connected_first_field u success line e u' :
  cmd (pystr "CONNECT?") u = (Val (success, line, e), u') ->
  connected u
  = (Val (str_eqb (takewhile (fun c => negb (c =? SPACE)%N) line) (pystr "1")),
     u').
Proof.
  intros H. unfold connected. erewrite bind_val by exact H. cbv zeta.
  destruct (split_head SPACE line) as [r E]. rewrite E. reflexivity.
Qed.

Lemma connected_first_field_witness :
  connected (scripted [wire "ERR14 1 UNABLE TO CONNECT"])
  = (Val true,
     mkUart (script [wire "ERR14 1 UNABLE TO CONNECT"]) 1
            [pybytes "AT+CONNECT?" ++ [x0d; x0a]]).
Proof.
  rewrite (@connected_first_field _ false (pystr "1 UNABLE TO CONNECT")
             (Some 14%Z)
             (mkUart (script [wire "ERR14 1 UNABLE TO CONNECT"]) 1
                     [pybytes "AT+CONNECT?" ++ [x0d; x0a]])).
  - reflexivity.
  - vm_compute. reflexivity.
Defined.

(** X7.  [onboarded] indexes the second field without checking that there is
    one: on a payload without a space it raises [IndexError], and on any
    other payload it returns a boolean. *)
Theorem onboarded_second_field u success line e u' :
  cmd (pystr "CONNECT?") u = (Val (success, line, e), u') ->
  (cnt SPACE line = 0 -> onboarded u = (Raise IndexError, u')) /\
  (cnt SPACE line <> 0 -> exists b, onboarded u = (Val b, u')).
Proof.
  intros H. unfold onboarded. erewrite bind_val by exact H.
  cbv beta iota zeta.
  pose proof (split_length SPACE line) as L.
  destruct (split SPACE line) as [|x [|y r]]; cbn [List.length] in L.
  - lia.
  - split; [reflexivity | lia].
  - split; [lia | now eexists].
Qed.

Lemma onboarded_second_field_witness :
  onboarded (scripted [wire "OK"])
  = (Raise IndexError,
     mkUart (script [wire "OK"]) 1 [pybytes "AT+CONNECT?" ++ [x0d; x0a]]).
Proof.
  apply (@onboarded_second_field _ true [] None).
  - vm_compute. reflexivity.
  - reflexivity.
Defined.

(** ** Typed configuration values *)


(** Plain text is its own escaped form, and its encoding is one octet
    per character. *)
Lemma escape_plain s : forallb plain s = true -> _escape s = s.
Proof.
  rewrite escape_render. unfold render.
  induction s as [|c t IH]; cbn [forallb flat_map]; [reflexivity|].
  intros H. apply andb_true_iff in H. destruct H as [Hc Ht].
  rewrite (IH Ht). unfold plain in Hc.
  apply andb_true_iff in Hc. destruct Hc as [Hc Hl].
  apply andb_true_iff in Hc. destruct Hc as [Hc Hr].
  apply andb_true_iff in Hc. destruct Hc as [_ Hb].
  apply negb_true_iff in Hb, Hr, Hl.
  unfold render_char. now rewrite Hb, Hr, Hl.
Qed.

Lemma utf8_encode_ascii s :
  forallb (fun c => (c <? 128)%N) s = true ->
  utf8_encode s = Some (map octet s).
Proof.
  induction s as [|c t IH]; cbn [forallb utf8_encode map]; [reflexivity|].
  intros H. apply andb_true_iff in H. destruct H as [Hc Ht].
  rewrite (IH Ht). unfold utf8_encode_char. now rewrite Hc.
Qed.

Lemma plain_ascii s :
  forallb plain s = true -> forallb (fun c => (c <? 128)%N) s = true.
Proof.
  induction s as [|c t IH]; cbn [forallb]; [reflexivity|].
  intros H. apply andb_true_iff in H. destruct H as [Hc Ht].
  rewrite (IH Ht), andb_true_r. unfold plain in Hc.
  now repeat (apply andb_true_iff in Hc; destruct Hc as [Hc _]).
Qed.



(** A plain command is sent as it is, one octet per character. *)
Lemma sendable_plain command :
  command <> [] -> forallb plain command = true ->
  sendable command (map octet (frame command)).
Proof.
  intros Hne Hp. split; [exact Hne|].
  rewrite (escape_plain _ Hp). apply utf8_encode_ascii.
  unfold frame. rewrite !forallb_app, (plain_ascii _ Hp). reflexivity.
Qed.

(** [cmd] writes the frame of a command it accepts, whatever is read
    afterwards. *)
Lemma cmd_writes_frame command b u :
  sendable command b -> tx (snd (cmd command u)) = tx u ++ [b].
Proof.
  intros Hs. rewrite (cmd_unfold u Hs), read_response_finish.
  destruct (readline_frame (written b u)) as (_ & F2 & _).
  destruct (_readline (written b u)) as [[l|e] u1] eqn:R; cbn [snd] in F2.
  - erewrite bind_val by exact R.
    destruct (after_status_line l u1) as (_ & A2 & _).
    now rewrite A2, F2.
  - erewrite bind_raise by exact R. cbn [snd]. now rewrite F2.
Qed.

Lemma set_value_state key value u :
  snd (ConfigMore._set_value key value u)
  = snd (cmd (pystr "CONF " ++ key ++ pystr "=" ++ value) u).
Proof.
  unfold ConfigMore._set_value, bind.
  destruct (cmd _ u) as [[[[success line] e]|ex] u1]; [|reflexivity].
  now destruct success.
Qed.

(** A setter given a plain key and a plain value writes one frame,
    [AT+CONF key=value], whatever the module answers. *)
Lemma set_value_frame key value u :
  forallb plain key = true -> forallb plain value = true ->
  tx (snd (ConfigMore._set_value key value u))
  = tx u ++ [map octet (pystr "AT+CONF " ++ key ++ pystr "="
                        ++ value ++ [CR; LF])].
Proof.
  intros Hk Hv. rewrite set_value_state.
  rewrite (@cmd_writes_frame _
             (map octet (frame (pystr "CONF " ++ key ++ pystr "="
                                ++ value)))).
  - unfold frame. now rewrite <- !app_assoc.
  - apply sendable_plain; [discriminate|].
    now rewrite !forallb_app, Hk, Hv.
Qed.





(** X9.  The setter of [EnableShadow] writes the flag as [1] or [0], and the
    getter reads a successful payload with [bool]: the empty text is false
    and every other text is true.  So the getter answers true for the flag
    the setter wrote, also when that flag is [0]. *)
Theorem EnableShadow_true_on_both_flags value u :
  tx (snd (ConfigMore.set_EnableShadow value u))
  = tx u ++ [map octet (pystr "AT+CONF EnableShadow="
                        ++ (if (value =? 0)%Z then pystr "0" else pystr "1")
                        ++ [CR; LF])] /\
  (forall line e u',
      cmd (pystr "CONF? EnableShadow") u = (Val (true, line, e), u') ->
      ConfigMore.EnableShadow u = (Val (negb (str_eqb line [])), u')) /\
  (forall e u',
      cmd (pystr "CONF? EnableShadow") u
      = (Val (true, ConfigMore.shadow_flag value, e), u') ->
      ConfigMore.EnableShadow u = (Val true, u')).
Proof.
  assert (G : forall line e u',
             cmd (pystr "CONF? EnableShadow") u = (Val (true, line, e), u') ->
             ConfigMore.EnableShadow u
             = (Val (ConfigMore.bool_of_str line), u')).
  { intros line e u' H. unfold ConfigMore.EnableShadow.
    erewrite bind_val by (apply extract_value_success with (e := e); exact H).
    reflexivity. }
  split; [|split].
  - unfold ConfigMore.set_EnableShadow, ConfigMore.shadow_flag.
    rewrite set_value_frame; [| reflexivity | now destruct (value =? 0)%Z].
    now destruct (value =? 0)%Z.
  - intros line e u' H. rewrite (G _ _ _ H). now destruct line.
  - intros e u' H. rewrite (G _ _ _ H). unfold ConfigMore.shadow_flag.
    now destruct (negb (value =? 0)%Z).
Qed.

Lemma EnableShadow_true_on_both_flags_witness :
  tx (snd (ConfigMore.set_EnableShadow 0 (scripted [wire "OK"])))
  = [pybytes "AT+CONF EnableShadow=0" ++ [x0d; x0a]] /\
  ConfigMore.EnableShadow (scripted [wire "OK 0"])
  = (Val true,
     mkUart (script [wire "OK 0"]) 1
            [pybytes "AT+CONF? EnableShadow" ++ [x0d; x0a]]).
Proof.
  split.
  - destruct (EnableShadow_true_on_both_flags 0 (scripted [wire "OK"]))
      as (H & _ & _).
    exact H.
  - destruct (EnableShadow_true_on_both_flags 0 (scripted [wire "OK 0"]))
      as (_ & _ & H).
    apply (H None). vm_compute. reflexivity.
Defined.

(** ** The topic table *)

Lemma dict_get_set_same k v d : dict_get k (dict_set k v d) = Some v.
Proof.
  induction d as [|[k' v'] r IH]; cbn [dict_set dict_get].
  - now rewrite Z.eqb_refl.
  - destruct (k =? k')%Z eqn:E; cbn [dict_get]; rewrite ?Z.eqb_refl, ?E;
      [reflexivity | exact IH].
Qed.

Lemma dict_get_set_other k j v d :
  j <> k -> dict_get j (dict_set k v d) = dict_get j d.
Proof.
  intros N. induction d as [|[k' v'] r IH]; cbn [dict_set dict_get].
  - now replace (j =? k)%Z with false by (symmetry; now apply Z.eqb_neq).
  - destruct (k =? k')%Z eqn:E; cbn [dict_get].
    + apply Z.eqb_eq in E. subst k'.
      now replace (j =? k)%Z with false by (symmetry; now apply Z.eqb_neq).
    + now rewrite IH.
Qed.

Lemma on_link_topics {A} (m : M A) h : _topics (snd (on_link m h)) = _topics h.
Proof. unfold on_link. now destruct (m (link h)) as [[a|e] u']. Qed.

Lemma hbind_done {A B} (m : H A) (k : A -> H B) h a h' :
  m h = (Done a, h') -> hbind m k h = k a h'.
Proof. intros E. unfold hbind. now rewrite E. Qed.

Lemma hbind_failed {A B} (m : H A) (k : A -> H B) h f h' :
  m h = (Failed f, h') -> hbind m k h = (Failed f, h').
Proof. intros E. unfold hbind. now rewrite E. Qed.

Lemma on_link_val {A} (m : M A) h a u' :
  m (link h) = (Val a, u') -> on_link m h = (Done a, mkHost u' (_topics h)).
Proof. intros E. unfold on_link. now rewrite E. Qed.

Lemma on_link_raise {A} (m : M A) h e u' :
  m (link h) = (Raise e, u') ->
  on_link m h = (Failed (Exn e), mkHost u' (_topics h)).
Proof. intros E. unfold on_link. now rewrite E. Qed.

(** X10.  [set_topic] writes the stripped name into the table before it talks
    to the module: the entry is there whatever the module answers, also
    when the call raises, and no other entry changes. *)
Theorem set_topic_remembers_first topic_index topic_name h :
  dict_get topic_index
           (_topics (snd (Topics.set_topic topic_index topic_name h)))
  = Some (strip topic_name) /\
  (forall j, j <> topic_index ->
     dict_get j (_topics (snd (Topics.set_topic topic_index topic_name h)))
     = dict_get j (_topics h)).
Proof.
  unfold Topics.set_topic. cbv zeta.
  erewrite hbind_done by reflexivity.
  rewrite on_link_topics. cbn [_topics].
  split; [apply dict_get_set_same|].
  intros j Hj. now apply dict_get_set_other.
Qed.

(** X11.  [get_topic] writes into the table only what the module returned: a
    successful read stores the payload under the index, and a read that
    raises leaves the table as it was. *)
Theorem get_topic_remembers_answer topic_index h :
  match fst (Topics.get_topic topic_index h) with
  | Done topic_name =>
      dict_get topic_index (_topics (snd (Topics.get_topic topic_index h)))
      = Some topic_name
  | Failed _ => _topics (snd (Topics.get_topic topic_index h)) = _topics h
  end.
Proof.
  unfold Topics.get_topic.
  set (q := Config._extract_value (pystr "Topic" ++ py_str_int topic_index)).
  destruct (q (link h)) as [[name|e] u'] eqn:E.
  - erewrite hbind_done by (apply on_link_val; exact E).
    erewrite hbind_done by reflexivity.
    cbn [hret fst snd _topics]. apply dict_get_set_same.
  - erewrite hbind_failed by (apply on_link_raise; exact E).
    reflexivity.
Qed.

(** X12.  [subscribe] configures the topic before it subscribes.  When the
    module refuses the configuration, [subscribe] raises [RuntimeError] and
    no [SUBSCRIBE] is sent, yet the table already holds the stripped name;
    when the module accepts it, the result is that of the [SUBSCRIBE]
    command, sent next. *)
Theorem subscribe_configures_first topic_index topic_name h u' :
  let conf := cmd (pystr "CONF Topic" ++ py_str_int topic_index
                   ++ pystr "=" ++ strip topic_name) (link h) in
  let table := dict_set topic_index (strip topic_name) (_topics h) in
  (forall line e,
      conf = (Val (false, line, e), u') ->
      Topics.subscribe topic_index topic_name h
      = (Failed (Exn RuntimeError), mkHost u' table)) /\
  (forall line e,
      conf = (Val (true, line, e), u') ->
      Topics.subscribe topic_index topic_name h
      = on_link (cmd (pystr "SUBSCRIBE" ++ py_str_int topic_index))
                (mkHost u' table)).
Proof.
  intros conf table.
  assert (S : forall success line e,
             conf = (Val (success, line, e), u') ->
             Topics.set_topic topic_index topic_name h
             = ((if success then Done line else Failed (Exn RuntimeError)),
                mkHost u' table)).
  { intros success line e Hc. unfold Topics.set_topic. cbv zeta.
    erewrite hbind_done by reflexivity.
    unfold on_link, ConfigMore._set_value. cbn [link _topics].
    rewrite <- !app_assoc.
    erewrite bind_val by exact Hc. now destruct success. }
  split; intros line e Hc; unfold Topics.subscribe.
  - erewrite hbind_failed by exact (S _ _ _ Hc). reflexivity.
  - erewrite hbind_done by exact (S _ _ _ Hc). reflexivity.
Qed.

Lemma subscribe_configures_first_witness :
  let h := mkHost (scripted [wire "ERR9 INVALID KEY LENGTH"; wire "OK"]) [] in
  Topics.subscribe 1 (pystr " test ") h
  = (Failed (Exn RuntimeError),
     mkHost (mkUart (rx (link h)) 1
                    [pybytes "AT+CONF Topic1=test" ++ [x0d; x0a]])
            [(1%Z, pystr "test")]).
Proof.
  intros h.
  destruct (@subscribe_configures_first 1 (pystr " test ") h
              (mkUart (rx (link h)) 1
                      [pybytes "AT+CONF Topic1=test" ++ [x0d; x0a]]))
    as [H _].
  apply (H (pystr "INVALID KEY LENGTH") (Some 9%Z)).
  vm_compute. reflexivity.
Defined.

(** X13.  A message read by a positive index needs the index in the table: if
    it is missing, [get_message] raises [KeyError] before anything is
    written to the module. *)
Theorem get_message_unknown_index z topic_name h :
  (0 < z)%Z -> dict_get z (_topics h) = None ->
  Topics.get_message (Some z) topic_name h = (Failed KeyError, h).
Proof.
  intros Hz Hd. unfold Topics.get_message.
  assert (Z0 : (z =? 0)%Z = false) by (apply Z.eqb_neq; lia).
  assert (Z1 : (z >? 0)%Z = true) by (apply Z.gtb_lt; lia).
  cbn [index_given]. rewrite Z0, Z1. cbn [negb andb].
  rewrite andb_false_r.
  erewrite hbind_failed; [reflexivity|].
  erewrite hbind_failed; [reflexivity|].
  unfold recall. now rewrite Hd.
Qed.

Lemma get_message_unknown_index_witness :
  Topics.get_message (Some 3%Z) None (mkHost (scripted [wire "OK hello"]) [])
  = (Failed KeyError, mkHost (scripted [wire "OK hello"]) []).
Proof.
  apply get_message_unknown_index; [lia | reflexivity].
Defined.

(** X14.  With the index in the table, for instance after [set_topic], a
    successful read returns the remembered name with the payload, and a
    failed one returns [False] with the error code. *)
Theorem get_message_known_index z n topic_name h success line e u' :
  (0 < z)%Z -> dict_get z (_topics h) = Some n ->
  cmd (pystr "GET" ++ py_str_int z) (link h) = (Val (success, line, e), u') ->
  Topics.get_message (Some z) topic_name h
  = (Done (if success then (PStr n, PStr line)
           else (PBool false, pyval_of_code e)),
     mkHost u' (_topics h)).
Proof.
  intros Hz Hd Hc. unfold Topics.get_message.
  assert (Z0 : (z =? 0)%Z = false) by (apply Z.eqb_neq; lia).
  assert (Z1 : (z >? 0)%Z = true) by (apply Z.gtb_lt; lia).
  cbn [index_given]. rewrite Z0, Z1. cbn [negb andb].
  rewrite andb_false_r.
  erewrite hbind_done.
  2:{ erewrite hbind_done; [reflexivity|]. unfold recall. now rewrite Hd. }
  cbv beta iota.
  erewrite hbind_done by (apply on_link_val; exact Hc).
  cbv beta iota. rewrite Z0. now destruct success.
Qed.

Lemma get_message_known_index_witness :
  let h := snd (Topics.set_topic 1 (pystr " test ")
                  (mkHost (scripted [wire "OK"; wire "OK foo\Abar"]) [])) in
  fst (Topics.get_message (Some 1%Z) None h)
  = Done (PStr (pystr "test"), PStr (pystr "foo" ++ [LF] ++ pystr "bar")).
Proof.
  intros h.
  erewrite (@get_message_known_index 1 (pystr "test") None h true
              (pystr "foo" ++ [LF] ++ pystr "bar") None).
  - reflexivity.
  - lia.
  - vm_compute. reflexivity.
  - vm_compute. reflexivity.
Defined.

Lemma split_once_spec sep s a b :
  split_once sep s = Some (a, b) -> s = a ++ sep :: b /\ cnt sep a = 0.
Proof.
  revert a. induction s as [|c t IH]; intros a; cbn [split_once];
    [discriminate|].
  destruct (N.eqb_spec c sep) as [->|Hc].
  - intros E; inversion E; subst. now split.
  - destruct (split_once sep t) as [[a' b']|]; [|discriminate].
    intros E; inversion E; subst.
    destruct (IH a' eq_refl) as [-> Ha]. split; [reflexivity|].
    cbn [cnt]. apply N.eqb_neq in Hc. now rewrite Hc, Ha.
Qed.

Lemma split_once_none sep s : split_once sep s = None <-> cnt sep s = 0.
Proof.
  induction s as [|c t IH]; cbn [split_once cnt]; [now split|].
  destruct (c =? sep)%N.
  - split; [discriminate | lia].
  - destruct (split_once sep t) as [[a b]|].
    + split; [discriminate|]. intros E. apply IH in E. discriminate.
    + rewrite <- IH. now split.
Qed.

Lemma get_message_unassigned_eq i h r u' :
  unassigned_index i ->
  cmd (pystr "GET" ++ match i with Some z => py_str_int z | None => [] end)
      (link h) = (Val r, u') ->
  Topics.get_message i None h
  = (let '(success, line, _) := r in
     if (success : bool) && ConfigMore.bool_of_str line then
       match split_once LF line with
       | Some (topic_name, message) =>
           (Done (PStr topic_name, PStr message), mkHost u' (_topics h))
       | None => (Failed (Exn ValueError), mkHost u' (_topics h))
       end
     else (Done (PBool true, PNone), mkHost u' (_topics h))).
Proof.
  intros [-> | ->] Hc; unfold Topics.get_message;
    cbn [name_given andb index_given Z.eqb negb Z.gtb Z.compare];
    (erewrite hbind_done by reflexivity); cbv beta iota;
    (erewrite hbind_done by (apply on_link_val; exact Hc));
    destruct r as [[success line] e]; cbv beta iota;
    cbn [Z.eqb];
    destruct (success && ConfigMore.bool_of_str line); try reflexivity;
    destruct (split_once LF line) as [[a b]|]; reflexivity.
Qed.

(** X15.  Without an index, or with index 0, an unsuccessful answer is
    reported as [(True, None)], the same as an empty one: the error code
    is dropped.  A successful non-empty payload is cut at its first LF into
    topic name and message; one without an LF raises [ValueError]. *)
Theorem get_message_unassigned i h u' :
  unassigned_index i ->
  let query :=
    cmd (pystr "GET" ++ match i with Some z => py_str_int z | None => [] end)
        (link h) in
  (forall line e,
      query = (Val (false, line, e), u') ->
      Topics.get_message i None h
      = (Done (PBool true, PNone), mkHost u' (_topics h))) /\
  (forall e,
      query = (Val (true, [], e), u') ->
      Topics.get_message i None h
      = (Done (PBool true, PNone), mkHost u' (_topics h))) /\
  (forall topic_name message e,
      cnt LF topic_name = 0 ->
      query = (Val (true, topic_name ++ LF :: message, e), u') ->
      Topics.get_message i None h
      = (Done (PStr topic_name, PStr message), mkHost u' (_topics h))) /\
  (forall line e,
      line <> [] -> cnt LF line = 0 ->
      query = (Val (true, line, e), u') ->
      Topics.get_message i None h
      = (Failed (Exn ValueError), mkHost u' (_topics h))).
Proof.
  intros Hi query. subst query. repeat apply conj.
  - intros line e Hc. now rewrite (get_message_unassigned_eq h Hi Hc).
  - intros e Hc. now rewrite (get_message_unassigned_eq h Hi Hc).
  - intros topic_name message e Hn Hc.
    rewrite (get_message_unassigned_eq h Hi Hc). cbv beta iota.
    assert (S : split_once LF (topic_name ++ LF :: message)
                = Some (topic_name, message)).
    { clear Hc. induction topic_name as [|c t IH]; [reflexivity|].
      cbn [cnt] in Hn. cbn [app split_once].
      destruct (c =? LF)%N; [discriminate|]. now rewrite IH by lia. }
    rewrite S. now destruct topic_name.
  - intros line e Hne Hn Hc.
    rewrite (get_message_unassigned_eq h Hi Hc). cbv beta iota.
    apply split_once_none in Hn. rewrite Hn. now destruct line.
Qed.

Lemma get_message_unassigned_witness :
  let h l := mkHost (scripted l) [] in
  fst (Topics.get_message None None (h [wire "ERR5 NO CONNECTION"]))
  = Done (PBool true, PNone) /\
  fst (Topics.get_message None None (h [wire "OK1 data"; wire "hello"]))
  = Done (PStr (pystr "data"), PStr (pystr "hello")) /\
  fst (Topics.get_message (Some 0%Z) None (h [wire "OK hello"]))
  = Failed (Exn ValueError).
Proof.
  intros h.
  assert (N : unassigned_index None) by (now left).
  assert (O : unassigned_index (Some 0%Z)) by (now right).
  repeat apply conj.
  - destruct (@get_message_unassigned None (h [wire "ERR5 NO CONNECTION"])
                (mkUart (script [wire "ERR5 NO CONNECTION"]) 1
                        [pybytes "AT+GET" ++ [x0d; x0a]]) N) as (G & _).
    erewrite (G (pystr "NO CONNECTION") (Some 5%Z)); [reflexivity|].
    vm_compute. reflexivity.
  - destruct (@get_message_unassigned None (h [wire "OK1 data"; wire "hello"])
                (mkUart (script [wire "OK1 data"; wire "hello"]) 2
                        [pybytes "AT+GET" ++ [x0d; x0a]]) N)
      as (_ & _ & G & _).
    erewrite (G (pystr "data") (pystr "hello") None); [reflexivity | |].
    + reflexivity.
    + vm_compute. reflexivity.
  - destruct (@get_message_unassigned (Some 0%Z) (h [wire "OK hello"])
                (mkUart (script [wire "OK hello"]) 1
                        [pybytes "AT+GET0" ++ [x0d; x0a]]) O)
      as (_ & _ & _ & G).
    erewrite (G (pystr "hello") None); [reflexivity | | |].
    + discriminate.
    + reflexivity.
    + vm_compute. reflexivity.
Defined.

(** X16.  A topic name alone never selects a topic: with a name and no index (or
    index 0), [get_message], [unsubscribe] and [publish] (of a non-empty
    message) raise [AttributeError] from the lookup, and nothing is written
    to the module. *)
Theorem lookup_by_name_raises topic_index topic_name h :
  name_given topic_name = true -> index_given topic_index = false ->
  Topics.get_message topic_index topic_name h
  = (Failed (Exn AttributeError), h) /\
  Topics.unsubscribe topic_index topic_name h
  = (Failed (Exn AttributeError), h) /\
  (forall message, message <> [] ->
     Topics.publish topic_index topic_name (Some message) h
     = (Failed (Exn AttributeError), h)).
Proof.
  intros Hn Hi.
  unfold Topics.get_message, Topics.unsubscribe, Topics.publish.
  rewrite Hn, Hi. cbn [negb andb]. repeat apply conj.
  - reflexivity.
  - reflexivity.
  - intros [|c m] Hm; [congruence | reflexivity].
Qed.

Lemma lookup_by_name_raises_witness :
  let h := mkHost (scripted [wire "OK"]) [(1%Z, pystr "test")] in
  Topics.publish None (Some (pystr "test")) (Some (pystr "hello")) h
  = (Failed (Exn AttributeError), h).
Proof.
  intros h.
  destruct (@lookup_by_name_raises None (Some (pystr "test")) h eq_refl eq_refl)
    as (_ & _ & P).
  apply P. discriminate.
Defined.

(** ** Event records *)












(** ** The frame on the wire *)

Lemma bcnt_app x a b : bcnt x (a ++ b) = bcnt x a + bcnt x b.
Proof.
  induction a as [|y a IH]; [reflexivity|].
  cbn [app bcnt]. rewrite IH. lia.
Qed.

Lemma octet_to_N n : (n <= 255)%N -> Byte.to_N (octet n) = n.
Proof.
  intros Hn. unfold octet.
  destruct (Byte.of_N n) as [b|] eqn:E.
  - now apply Byte.to_of_N.
  - apply Byte.of_N_None_iff in E. lia.
Qed.

Lemma byte_eqb_to_N y x :
  Byte.eqb y x = (Byte.to_N y =? Byte.to_N x)%N.
Proof.
  destruct (Byte.eqb y x) eqn:E.
  - apply Byte.byte_dec_bl in E. subst. now rewrite N.eqb_refl.
  - symmetry. apply N.eqb_neq. intros H.
    assert (y = x).
    { pose proof (Byte.of_to_N y) as A. pose proof (Byte.of_to_N x) as B.
      rewrite H in A. congruence. }
    subst. rewrite (Byte.byte_dec_lb eq_refl) in E. discriminate.
Qed.

(** A high octet is no ASCII octet. *)
Lemma bcnt_high x n :
  (Byte.to_N x < 128)%N -> (128 <= n <= 255)%N ->
  Byte.eqb (octet n) x = false.
Proof.
  intros Hx Hn. rewrite byte_eqb_to_N, octet_to_N by lia.
  apply N.eqb_neq. lia.
Qed.

(** An ASCII octet appears in the encoding of a character only as that
    character. *)
Lemma some_inj {A} (a b : A) : Some a = Some b -> a = b.
Proof. congruence. Qed.

Lemma bcnt_encode_char x c bs :
  (Byte.to_N x < 128)%N ->
  utf8_encode_char c = Some bs ->
  bcnt x bs = if (c =? Byte.to_N x)%N then 1 else 0.
Proof.
  intros Hx. unfold utf8_encode_char.
  assert (D64 : (c mod 64 < 64)%N) by (apply N.mod_lt; lia).
  assert (D64' : ((c / 64) mod 64 < 64)%N) by (apply N.mod_lt; lia).
  assert (D4096 : ((c / 4096) mod 64 < 64)%N) by (apply N.mod_lt; lia).
  pose proof (N.le_0_l (c mod 64)) as P1.
  pose proof (N.le_0_l ((c / 64) mod 64)) as P2.
  pose proof (N.le_0_l ((c / 4096) mod 64)) as P3.
  pose proof (N.le_0_l (c / 64)) as P4.
  pose proof (N.le_0_l (c / 4096)) as P5.
  pose proof (N.le_0_l (c / 262144)) as P6.
  destruct (N.ltb_spec c 128) as [H1|H1].
  - intros E. apply some_inj in E. subst bs. cbn [bcnt].
    rewrite byte_eqb_to_N, octet_to_N by lia. now rewrite Nat.add_0_r.
  - replace (c =? Byte.to_N x)%N with false
      by (symmetry; apply N.eqb_neq; lia).
    destruct (N.ltb_spec c 2048) as [H2|H2].
    + intros E. apply some_inj in E. subst bs. cbn [bcnt].
      assert (c / 64 < 32)%N by (apply N.Div0.div_lt_upper_bound; lia).
      now rewrite !bcnt_high by lia.
    + destruct (N.ltb_spec c 65536) as [H3|H3].
      * destruct ((55296 <=? c) && (c <=? 57343))%N; [discriminate|].
        intros E. apply some_inj in E. subst bs. cbn [bcnt].
        assert (c / 4096 < 16)%N by (apply N.Div0.div_lt_upper_bound; lia).
        now rewrite !bcnt_high by lia.
      * destruct (N.ltb_spec c 1114112) as [H4|H4]; [|discriminate].
        intros E. apply some_inj in E. subst bs. cbn [bcnt].
        assert (c / 262144 < 5)%N by (apply N.Div0.div_lt_upper_bound; lia).
        now rewrite !bcnt_high by lia.
Qed.

Lemma bcnt_encode x s : forall b,
  (Byte.to_N x < 128)%N ->
  utf8_encode s = Some b -> bcnt x b = cnt (Byte.to_N x) s.
Proof.
  induction s as [|c t IH]; intros b Hx; cbn [utf8_encode cnt].
  - intros E; inversion E. reflexivity.
  - destruct (utf8_encode_char c) as [bc|] eqn:Ec; [|discriminate].
    destruct (utf8_encode t) as [bt|]; [|discriminate].
    intros E; inversion E; subst.
    rewrite bcnt_app, (bcnt_encode_char x c Hx Ec), (IH bt Hx eq_refl).
    reflexivity.
Qed.

Lemma utf8_encode_app s t b :
  utf8_encode (s ++ t) = Some b ->
  exists bs bt, utf8_encode s = Some bs /\ utf8_encode t = Some bt /\
                b = bs ++ bt.
Proof.
  revert b. induction s as [|c s IH]; intros b; cbn [app utf8_encode].
  - intros E. now exists [], b.
  - destruct (utf8_encode_char c) as [bc|]; [|discriminate].
    destruct (utf8_encode (s ++ t)) as [r|]; [|discriminate].
    intros E; inversion E; subst.
    destruct (IH r eq_refl) as (bs & bt & -> & -> & ->).
    exists (bc ++ bs), bt. now rewrite app_assoc.
Qed.

(** X18.  What [cmd] writes is one line: the octets of the frame end with CR LF
    and hold no other CR or LF, whatever characters the command is made
    of. *)
Theorem frame_is_one_line command b :
  sendable command b ->
  exists body,
    b = body ++ [x0d; x0a] /\ bcnt x0d body = 0 /\ bcnt x0a body = 0.
Proof.
  intros [_ E]. unfold frame in E.
  rewrite app_assoc in E.
  destruct (utf8_encode_app _ _ E) as (body & bt & Eb & Et & ->).
  cbn in Et. inversion Et; subst bt. exists body.
  split; [reflexivity|].
  destruct (cnt_escape_line_breaks command) as [C L].
  rewrite (@bcnt_encode x0d _ body ltac:(cbn; lia) Eb).
  rewrite (@bcnt_encode x0a _ body ltac:(cbn; lia) Eb).
  change (Byte.to_N x0d) with CR. change (Byte.to_N x0a) with LF.
  rewrite !cnt_app, C, L. split; reflexivity.
Qed.

Lemma frame_is_one_line_witness :
  sendable (pystr "SEND1 a" ++ [LF] ++ pystr "b")
           (pybytes "AT+SEND1 a\Ab" ++ [x0d; x0a]) /\
  exists body,
    pybytes "AT+SEND1 a\Ab" ++ [x0d; x0a] = body ++ [x0d; x0a] /\
    bcnt x0d body = 0 /\ bcnt x0a body = 0.
Proof.
  assert (S : sendable (pystr "SEND1 a" ++ [LF] ++ pystr "b")
                       (pybytes "AT+SEND1 a\Ab" ++ [x0d; x0a]))
    by (split; [discriminate | reflexivity]).
  split; [exact S | exact (frame_is_one_line S)].
Defined.

(** ** Chunked delivery *)

(** X19.  A line may arrive in any number of pieces: the loop stops at the
    first poll after which the accumulated octets end with LF and returns
    them, having made exactly that many calls of [readline]. *)
Theorem poll_assembles_chunks counter : forall k l u,
  k < counter ->
  (forall i, i <= k -> rx u (pos u + i) <> Fault) ->
  (forall i, i < k ->
     endswith Byte.eqb [x0a] (accumulated (rx u) (pos u) (S i) l) = false) ->
  endswith Byte.eqb [x0a] (accumulated (rx u) (pos u) (S k) l) = true ->
  poll counter l u
  = (Val (accumulated (rx u) (pos u) (S k) l),
     mkUart (rx u) (pos u + S k) (tx u)).
Proof.
  induction counter as [|n IH]; intros k l u Hk Hf He Hl; [lia|].
  pose proof (Hf 0 (Nat.le_0_l k)) as Hf0. rewrite Nat.add_0_r in Hf0.
  cbn [poll]. unfold bind, uart_readline.
  set (u1 := mkUart (rx u) (S (pos u)) (tx u)).
  destruct k as [|k].
  - cbn [accumulated] in Hl |- *. rewrite Nat.add_1_r.
    destruct (rx u (pos u)) as [p| |]; [| |congruence];
      cbn [received] in *; cbv zeta; rewrite Hl; reflexivity.
  - assert (R : poll n (accumulate l (received (rx u (pos u)))) u1
                = (Val (accumulated (rx u) (pos u) (S (S k)) l),
                   mkUart (rx u) (pos u + S (S k)) (tx u))).
    { replace (pos u + S (S k)) with (pos u1 + S k) by (cbn; lia).
      apply (IH k _ u1); [lia | | |].
      - intros i Hi. cbn [rx pos u1]. rewrite Nat.add_succ_comm.
        apply Hf. lia.
      - intros i Hi. cbn [rx pos u1]. apply (He (S i)). lia.
      - exact Hl. }
    pose proof (He 0 (Nat.lt_0_succ k)) as He0. cbn [accumulated] in He0.
    destruct (rx u (pos u)) as [p| |]; [| |congruence];
      cbn [received] in *; cbv zeta; rewrite He0; exact R.
Qed.

Lemma poll_assembles_chunks_witness :
  let u := scripted [Chunk (pybytes "OK 1 "); NoData;
                     Chunk (pybytes "0 foo" ++ [x0d; x0a]);
                     Chunk (pybytes "next")] in
  poll 300 [] u
  = (Val (pybytes "OK 1 0 foo" ++ [x0d; x0a]), mkUart (rx u) 3 []).
Proof.
  intros u.
  apply (@poll_assembles_chunks 300 2 [] u).
  - lia.
  - intros i Hi. destruct i as [|[|[|i]]]; [discriminate.. | lia].
  - intros i Hi. destruct i as [|[|i]]; [reflexivity.. | lia].
  - reflexivity.
Defined.

(** ** OTA state *)





(** ** Two more of the repository's tests *)

Example test_escaping :
  let responses := [wire "OK"; wire "OK"] in
  let message := pystr "foo" ++ [LF] ++ pystr "bar" ++ [CR]
                   ++ pystr "some\thing" in
  on_link ExpressLink_init (mkHost (scripted responses) [])
  = (Done true, mkHost (mkUart (script responses) 1 [AT]) []) /\
  Topics.publish (Some 1%Z) None (Some message)
                 (mkHost (mkUart (script responses) 1 [AT]) [])
  = (Done (true, [], None),
     mkHost (mkUart (script responses) 2
               [AT; pybytes "AT+SEND1 foo\Abar\Dsome\\thing" ++ [x0d; x0a]])
            []).
Proof. vm_compute. split; reflexivity. Qed.

Example test_unescaping :
  let responses := [wire "OK"; wire "OK foo\Abar\Dsome\\thing"] in
  let h := mkHost (scripted responses) [] in
  let h1 := snd (Topics.set_topic 1 (pystr "test") h) in
  tx (link h1) = [pybytes "AT+CONF Topic1=test" ++ [x0d; x0a]] /\
  fst (Topics.get_message (Some 1%Z) None h1)
  = Done (PStr (pystr "test"),
          PStr (pystr "foo" ++ [LF] ++ pystr "bar" ++ [CR]
                  ++ pystr "some\thing")) /\
  tx (link (snd (Topics.get_message (Some 1%Z) None h1)))
  = [pybytes "AT+CONF Topic1=test" ++ [x0d; x0a];
     pybytes "AT+GET1" ++ [x0d; x0a]].
Proof. vm_compute. repeat split. Qed.
